(** * Revisit-Backend: authentication guard, auth routes and category routes

    A shallow embedding of the Express application
    (middleware/auth.js, routes/auth.js, routes/categories.js and the
    schema of database/init.js) together with the properties of its
    specification.

    The SQLite store, the uploads directory and the plan of store
    failures form an explicit world that every handler threads through a
    state-and-exception monad.  The libraries the code calls (bcryptjs,
    jsonwebtoken, path.extname) are parameters of the development. *)

From Stdlib Require Import ZArith String Ascii List Lia.
From Stdlib Require Import Sorted.
From stdpp Require Import base option strings list gmap pretty.

Set Default Proof Using "Type".

Open Scope string_scope.
Open Scope Z_scope.

(** ** JavaScript values *)

(** A body field that holds text: [None] is [undefined].  The username,
    the email and the name of a category are modelled as absent or a
    string, which is what a multipart form and the JSON clients of the
    routes send; the password is a [jsval] below, as bcryptjs tells a
    string from any other value. *)
Definition field := option string.

(** [!!v] for a text field: [undefined] and the empty string are falsy. *)
Definition truthy_field (v : field) : bool :=
  match v with
  | None => false
  | Some s => negb (String.eqb s "")
  end.

(** The values a body field can take where the program does not fix
    its type: [req.body.itemCount] (multipart text or JSON) and
    [req.body.password] (any JSON value, server.js line 18). *)
Inductive jsval :=
| JUndefined
| JNull
| JBool (b : bool)
| JNum (n : Z)
| JStr (s : string).

Definition truthy (v : jsval) : bool :=
  match v with
  | JUndefined | JNull => false
  | JBool b => b
  | JNum n => negb (n =? 0)
  | JStr s => negb (String.eqb s "")
  end.

(** The text a value is, when it is text: what [typeof v === 'string']
    singles out. *)
Definition text (v : jsval) : field :=
  match v with
  | JStr s => Some s
  | _ => None
  end.

(** [a || b] *)
Definition js_or (a b : jsval) : jsval := if truthy a then a else b.

(** A value held by a column.  The model stores a bound parameter as it
    is bound, which is what the store does with a number, a boolean and
    null.  Text bound to the INTEGER column [item_count] is kept as text
    here, where SQLite's INTEGER affinity stores text that denotes a
    number as that number; numbers are the integers a double holds
    exactly.  The statements about item counts are about counts sent as
    numbers or not sent. *)
Inductive sqlval :=
| SqlNull
| SqlInt (n : Z)
| SqlText (s : string).

(** Binding a JavaScript value to a [?] placeholder. *)
Definition bind_param (v : jsval) : sqlval :=
  match v with
  | JUndefined | JNull => SqlNull
  | JBool b => SqlInt (if b then 1 else 0)
  | JNum n => SqlInt n
  | JStr s => SqlText s
  end.

(** A column value read back into JavaScript. *)
Definition js_of_sql (v : sqlval) : jsval :=
  match v with
  | SqlNull => JNull
  | SqlInt n => JNum n
  | SqlText s => JStr s
  end.

(** [s.split(' ')]: one piece per separator, empty pieces kept. *)
Fixpoint split (sep : ascii) (s : string) : list string :=
  match s with
  | EmptyString => [EmptyString]
  | String c s' =>
      if Ascii.eqb c sep then EmptyString :: split sep s'
      else match split sep s' with
           | [] => [String c EmptyString]
           | w :: ws => String c w :: ws
           end
  end.

(** ** Rows, as database/init.js declares the tables *)

Record user_row := {
  u_id : Z;
  u_username : string;
  u_email : string;
  u_password : string;
  u_created_at : Z
}.

Record category_row := {
  c_id : Z;
  c_name : string;
  c_item_count : sqlval;
  c_image : option string;
  c_created_at : Z;
  c_updated_at : Z
}.

(** ** The world a request runs in *)

Record World := {
  users : list user_row;
  users_seq : Z;
  categories : list category_row;
  categories_seq : Z;
  uploads : gset string;
  faults : list bool
}.

(** What the process reads from its surroundings while serving one
    request. *)
Record env := {
  JWT_SECRET : option string;
  Date_now : Z;
  Math_random_1E9 : Z;
  entropy : string
}.

(** [CURRENT_TIMESTAMP], counted in seconds. *)
Definition CURRENT_TIMESTAMP (e : env) : Z := Date_now e / 1000.

Inductive exn :=
| TypeError (msg : string)
| JsonWebTokenError (msg : string)
| TokenExpiredError
| NotBeforeError
| SqliteError (code : string)
| MulterError (code : string)
| Error (msg : string).

Inductive outcome (A : Type) :=
| Ok (a : A)
| Throw (e : exn).
Arguments Ok {A} a.
Arguments Throw {A} e.

Definition M (A : Type) : Type := World -> outcome A * World.

#[global] Instance M_ret : MRet M := fun A a w => (Ok a, w).

#[global] Instance M_bind : MBind M := fun A B f m w =>
  match m w with
  | (Ok a, w') => f a w'
  | (Throw e, w') => (Throw e, w')
  end.

Definition throw {A} (e : exn) : M A := fun w => (Throw e, w).

(** [try { m } catch (err) { h err }] *)
Definition try_catch {A} (m : M A) (h : exn -> M A) : M A := fun w =>
  match m w with
  | (Ok a, w') => (Ok a, w')
  | (Throw e, w') => h e w'
  end.

Definition get_world : M World := fun w => (Ok w, w).
Definition put_world (w' : World) : M unit := fun _ => (Ok tt, w').

(** ** The store: one function per SQL statement of the routes *)

Definition with_faults (plan : list bool) (w : World) : World :=
  {| users := users w; users_seq := users_seq w;
     categories := categories w; categories_seq := categories_seq w;
     uploads := uploads w; faults := plan |}.

(** Every call on the store takes the head of the failure plan; [true]
    makes the call throw. *)
Definition store_call : M unit := fun w =>
  match faults w with
  | [] => (Ok tt, w)
  | b :: rest =>
      if b then (Throw (SqliteError "SQLITE_ERROR"), with_faults rest w)
      else (Ok tt, with_faults rest w)
  end.

(** [getDb()] *)
Definition getDb : M unit := store_call.

Definition set_users (us : list user_row) (seq : Z) (w : World) : World :=
  {| users := us; users_seq := seq;
     categories := categories w; categories_seq := categories_seq w;
     uploads := uploads w; faults := faults w |}.

Definition set_categories (cs : list category_row) (seq : Z) (w : World)
  : World :=
  {| users := users w; users_seq := users_seq w;
     categories := cs; categories_seq := seq;
     uploads := uploads w; faults := faults w |}.

Definition set_uploads (fs : gset string) (w : World) : World :=
  {| users := users w; users_seq := users_seq w;
     categories := categories w; categories_seq := categories_seq w;
     uploads := fs; faults := faults w |}.

(** [SELECT * FROM users WHERE email = ?] *)
Definition select_user_by_email (email : string) (us : list user_row)
  : option user_row :=
  List.find (fun u => String.eqb (u_email u) email) us.

(** [SELECT * FROM users WHERE username = ?] *)
Definition select_user_by_username (username : string) (us : list user_row)
  : option user_row :=
  List.find (fun u => String.eqb (u_username u) username) us.

(** [SELECT id, username, email FROM users WHERE id = ?] *)
Definition select_user_by_id (id : Z) (us : list user_row)
  : option user_row :=
  List.find (fun u => u_id u =? id) us.

(** [SELECT * FROM categories WHERE name = ?] *)
Definition select_category_by_name (name : string) (cs : list category_row)
  : option category_row :=
  List.find (fun c => String.eqb (c_name c) name) cs.

(** [SELECT * FROM categories WHERE id = ?] *)
Definition select_category_by_id (id : Z) (cs : list category_row)
  : option category_row :=
  List.find (fun c => c_id c =? id) cs.

(** The rowid an AUTOINCREMENT table gives its next row. *)
Definition next_rowid (seq : Z) (ids : list Z) : Z :=
  1 + fold_right Z.max seq ids.

Definition db_get_user_by_email (email : string) : M (option user_row) :=
  _ ← store_call; w ← get_world;
  mret (select_user_by_email email (users w)).

Definition db_get_user_by_username (username : string)
  : M (option user_row) :=
  _ ← store_call; w ← get_world;
  mret (select_user_by_username username (users w)).

Definition db_get_user_by_id (id : Z) : M (option user_row) :=
  _ ← store_call; w ← get_world; mret (select_user_by_id id (users w)).

(** [INSERT INTO users (username, email, password) VALUES (?, ?, ?)];
    both [username] and [email] are declared UNIQUE. *)
Definition db_insert_user (e : env) (username email password : string)
  : M Z :=
  _ ← store_call; w ← get_world;
  match select_user_by_username username (users w),
        select_user_by_email email (users w) with
  | None, None =>
      let id := next_rowid (users_seq w) (map u_id (users w)) in
      _ ← put_world
            (set_users (users w ++
                        [{| u_id := id; u_username := username;
                            u_email := email; u_password := password;
                            u_created_at := CURRENT_TIMESTAMP e |}])
                       id w);
      mret id
  | _, _ => throw (SqliteError "SQLITE_CONSTRAINT")
  end.

Definition db_get_category_by_name (name : string)
  : M (option category_row) :=
  _ ← store_call; w ← get_world;
  mret (select_category_by_name name (categories w)).

Definition db_get_category_by_id (id : Z) : M (option category_row) :=
  _ ← store_call; w ← get_world;
  mret (select_category_by_id id (categories w)).

(** [INSERT INTO categories (name, item_count, image) VALUES (?, ?, ?)];
    the table declares no constraint on [name] besides NOT NULL. *)
Definition db_insert_category (e : env) (name : string) (item_count : jsval)
    (image : option string) : M Z :=
  _ ← store_call; w ← get_world;
  let id := next_rowid (categories_seq w) (map c_id (categories w)) in
  _ ← put_world
        (set_categories (categories w ++
                         [{| c_id := id; c_name := name;
                             c_item_count := bind_param item_count;
                             c_image := image;
                             c_created_at := CURRENT_TIMESTAMP e;
                             c_updated_at := CURRENT_TIMESTAMP e |}])
                        id w);
  mret id.

(** [UPDATE categories SET name = ?, item_count = ?, image = ?,
    updated_at = CURRENT_TIMESTAMP WHERE id = ?] *)
Definition update_row (e : env) (name : string) (item_count : jsval)
    (image : option string) (id : Z) (c : category_row) : category_row :=
  if c_id c =? id then
    {| c_id := c_id c; c_name := name;
       c_item_count := bind_param item_count; c_image := image;
       c_created_at := c_created_at c;
       c_updated_at := CURRENT_TIMESTAMP e |}
  else c.

Definition db_update_category (e : env) (name : string) (item_count : jsval)
    (image : option string) (id : Z) : M unit :=
  _ ← store_call; w ← get_world;
  put_world (set_categories
               (map (update_row e name item_count image id) (categories w))
               (categories_seq w) w).

(** [DELETE FROM categories WHERE id = ?] *)
Definition db_delete_category (id : Z) : M unit :=
  _ ← store_call; w ← get_world;
  put_world (set_categories
               (List.filter (fun c => negb (c_id c =? id)) (categories w))
               (categories_seq w) w).

(** [SELECT * FROM categories ORDER BY created_at DESC]; the order SQLite
    gives rows of one timestamp is its own choice, the model keeps them
    in table order. *)
Fixpoint insert_newest_first (c : category_row) (l : list category_row)
  : list category_row :=
  match l with
  | [] => [c]
  | x :: xs =>
      if c_created_at x <=? c_created_at c then c :: x :: xs
      else x :: insert_newest_first c xs
  end.

Definition order_by_created_at_desc (l : list category_row)
  : list category_row :=
  fold_right insert_newest_first [] l.

Definition db_all_categories : M (list category_row) :=
  _ ← store_call; w ← get_world;
  mret (order_by_created_at_desc (categories w)).

(** ** The uploads directory *)

(** [fs.existsSync(path.join(__dirname, '../uploads', name))] *)
Definition fs_existsSync (name : string) : M bool := fun w =>
  (Ok (bool_decide (name ∈ uploads w)), w).

(** [fs.unlinkSync(path)]; it throws when the file is absent. *)
Definition fs_unlinkSync (name : string) : M unit := fun w =>
  if bool_decide (name ∈ uploads w)
  then (Ok tt, set_uploads (uploads w ∖ {[name]}) w)
  else (Throw (Error "ENOENT"), w).

(** ** Requests and replies *)

(** The payload of a token: [{ id, username, email }]. *)
Record jwt_payload := {
  jwt_id : Z;
  jwt_username : string;
  jwt_email : string
}.

(** A file part of a multipart request, as the client sends it. *)
Record upload_part := {
  fieldname : string;
  originalname : string;
  mimetype : string;
  size : Z
}.

(** [req.file], as multer leaves it. *)
Record multer_file := { filename : string }.

(** The request object.  [authorization] is
    [req.headers.authorization]; [params_id] is [req.params.id] as the
    integer the store compares with the rowid: the comparison with the
    INTEGER column converts the text to a number, so '1', '01' and '1.0'
    all stand for the id 1, and a parameter that denotes no integer
    matches no row, as an unused id does;
    [part] is the file part the client sent, [req_file] and [req_user]
    are what multer and the guard attach. *)
Record request := {
  authorization : option string;
  params_id : Z;
  body_username : field;
  body_email : field;
  body_password : jsval;
  body_name : field;
  body_itemCount : jsval;
  part : option upload_part;
  req_file : option multer_file;
  req_user : option jwt_payload
}.

Definition set_req_user (p : jwt_payload) (r : request) : request :=
  {| authorization := authorization r; params_id := params_id r;
     body_username := body_username r; body_email := body_email r;
     body_password := body_password r; body_name := body_name r;
     body_itemCount := body_itemCount r; part := part r;
     req_file := req_file r; req_user := Some p |}.

Definition set_req_file (f : multer_file) (r : request) : request :=
  {| authorization := authorization r; params_id := params_id r;
     body_username := body_username r; body_email := body_email r;
     body_password := body_password r; body_name := body_name r;
     body_itemCount := body_itemCount r; part := part r;
     req_file := Some f; req_user := req_user r |}.

Record public_user := {
  pu_id : Z;
  pu_username : string;
  pu_email : string
}.

Record category_json := {
  j_id : Z;
  j_name : string;
  j_itemCount : sqlval;
  j_image : option string;
  j_createdAt : Z;
  j_updatedAt : Z
}.

Inductive json_body :=
| Message (message : string)
| Registered (message : string)
| LoginOk (token : string) (user : public_user)
| UserJson (u : public_user)
| CategoryJson (c : category_json)
| CategoriesJson (cs : list category_json).

(** What a request ends in: a response sent by the code, or an error
    handed to the framework with [next(err)]. *)
Inductive reply :=
| Respond (status : Z) (body : json_body)
| NextError (e : exn).

(** The string of a text field once it is known to be truthy. *)
Definition str (v : field) : string := default "" v.

(** [image ? `/uploads/${image}` : null] *)
Definition uploads_path (image : option string) : option string :=
  if truthy_field image then Some ("/uploads/" +:+ str image) else None.

Definition lift_outcome {A} (o : outcome A) : M A := fun w => (o, w).

(** ** Upload configuration of routes/categories.js *)

Definition fileFilter (f : upload_part) : outcome bool :=
  if String.prefix "image/" (mimetype f) then Ok true
  else Throw (Error "Not an image! Please upload only images.").

Definition fileSize : Z := 5 * 1024 * 1024.

(** ** Sample data

    Stand-ins for the libraries and a seeded store, on which the model
    is run at concrete requests. *)

Definition sample_genSalt (e : env) (rounds : Z) : string := entropy e.

Definition sample_hash (password salt : string) : string :=
  salt +:+ "$" +:+ password.

Definition sample_compare (password digest : string) : bool :=
  String.eqb digest (sample_hash password "salt").

Definition sample_sign (now : Z) (p : jwt_payload) (secret : option string)
    (expiresIn : string) : outcome string :=
  match secret with
  | None => Throw (Error "secretOrPrivateKey must have a value")
  | Some k => Ok (k +:+ "." +:+ jwt_username p)
  end.

Definition sample_verify (now : Z) (token : string)
    (secret : option string) : outcome jwt_payload :=
  match secret with
  | None => Throw (JsonWebTokenError "secret or public key must be provided")
  | Some k =>
      if String.eqb token (k +:+ ".admin") then
        Ok {| jwt_id := 1; jwt_username := "admin";
              jwt_email := "admin@example.com" |}
      else Throw (JsonWebTokenError "invalid signature")
  end.

Definition sample_extname (name : string) : string := ".jpg".

Definition sample_env : env :=
  {| JWT_SECRET := Some "key"; Date_now := 1700000000000;
     Math_random_1E9 := 123456789; entropy := "salt" |}.

(** The rows [initDb] seeds: the test user and [sampleCategories]. *)
Definition sample_category (id : Z) (name : string) (itemCount : Z)
    (image : string) : category_row :=
  {| c_id := id; c_name := name; c_item_count := SqlInt itemCount;
     c_image := Some image; c_created_at := 1600000000;
     c_updated_at := 1600000000 |}.

Definition sampleCategories : list category_row :=
  [ sample_category 1 "Summer Clothes" 26 "summer.jpg";
    sample_category 2 "Winter Collection" 32 "winter.jpg";
    sample_category 3 "Casual Wear" 45 "casual.jpg";
    sample_category 4 "Formal Attire" 18 "formal.jpg";
    sample_category 5 "Sports & Outdoor" 29 "sports.jpg";
    sample_category 6 "Accessories" 52 "accessories.jpg" ].

Definition admin_row : user_row :=
  {| u_id := 1; u_username := "admin"; u_email := "admin@example.com";
     u_password := sample_hash "password123" "salt";
     u_created_at := 1600000000 |}.

Definition sample_world : World :=
  {| users := [admin_row];
     users_seq := 1;
     categories := sampleCategories;
     categories_seq := 6;
     uploads := {["summer.jpg"]} ∪ {["winter.jpg"]};
     faults := [] |}.

Definition sample_request : request :=
  {| authorization := Some "Bearer key.admin"; params_id := 1;
     body_username := None; body_email := None;
     body_password := JUndefined;
     body_name := None; body_itemCount := JUndefined; part := None;
     req_file := None; req_user := None |}.

Definition with_credentials (username email : field) (password : jsval)
    (r : request) : request :=
  {| authorization := authorization r; params_id := params_id r;
     body_username := username; body_email := email;
     body_password := password; body_name := body_name r;
     body_itemCount := body_itemCount r; part := part r;
     req_file := req_file r; req_user := req_user r |}.

Definition with_category (id : Z) (name : field) (itemCount : jsval)
    (f : option upload_part) (r : request) : request :=
  {| authorization := authorization r; params_id := id;
     body_username := body_username r; body_email := body_email r;
     body_password := body_password r; body_name := name;
     body_itemCount := itemCount; part := f;
     req_file := req_file r; req_user := req_user r |}.

(** Requests against the seeded store. *)
Definition admin_payload : jwt_payload :=
  {| jwt_id := 1; jwt_username := "admin";
     jwt_email := "admin@example.com" |}.




Definition text_part : upload_part :=
  {| fieldname := "image"; originalname := "notes.txt";
     mimetype := "text/plain"; size := 120 |}.

Definition jpeg_part : upload_part :=
  {| fieldname := "image"; originalname := "beach.jpg";
     mimetype := "image/jpeg"; size := 48000 |}.

Definition create_with_text_upload : request :=
  with_category 0 (Some "Clearance") (JNum 5) (Some text_part)
    sample_request.

Definition create_with_negative_count : request :=
  with_category 0 (Some "Clearance") (JNum (-5)) None sample_request.

Definition create_flash_sale : request :=
  with_category 0 (Some "Flash Sale") (JNum 10) None sample_request.

Definition create_summer_again : request :=
  with_category 0 (Some "Summer Clothes") (JNum 3) None sample_request.

Definition update_count_only : request :=
  with_category 1 None (JNum 30) None sample_request.

Definition update_image_only : request :=
  with_category 1 None JUndefined (Some jpeg_part) sample_request.

Definition delete_summer : request :=
  with_category 1 None JUndefined None sample_request.

(** [r] with another authorization header. *)
Definition with_authorization (h : option string) (r : request) : request :=
  {| authorization := h; params_id := params_id r;
     body_username := body_username r; body_email := body_email r;
     body_password := body_password r; body_name := body_name r;
     body_itemCount := body_itemCount r; part := part r;
     req_file := req_file r; req_user := req_user r |}.

(** A string without a space. *)
Fixpoint no_space (s : string) : bool :=
  match s with
  | EmptyString => true
  | String c s' => negb (Ascii.eqb c " ") && no_space s'
  end.

(** ** database/init.js: what [initDb] seeds *)

(** The [sampleCategories] array: name, item count, image. *)
Definition sampleCategories_data : list (string * Z * string) :=
  [ ("Summer Clothes", 26, "summer.jpg");
    ("Winter Collection", 32, "winter.jpg");
    ("Casual Wear", 45, "casual.jpg");
    ("Formal Attire", 18, "formal.jpg");
    ("Sports & Outdoor", 29, "sports.jpg");
    ("Accessories", 52, "accessories.jpg") ].

(** The number of rows of [users], as the COUNT query gives it. *)
Definition db_count_users : M Z :=
  _ ← store_call; w ← get_world; mret (Z.of_nat (length (users w))).

(** The number of rows of [categories], as the COUNT query gives it. *)
Definition db_count_categories : M Z :=
  _ ← store_call; w ← get_world; mret (Z.of_nat (length (categories w))).

(** [for (const category of sampleCategories) await stmt.run(...)] *)
Fixpoint insert_each (e : env) (l : list (string * Z * string)) : M unit :=
  match l with
  | [] => mret tt
  | (name, itemCount, image) :: rest =>
      _ ← db_insert_category e name (JNum itemCount) (Some image);
      insert_each e rest
  end.

(** A store that has never held a row. *)
Definition empty_world : World :=
  {| users := []; users_seq := 0; categories := []; categories_seq := 0;
     uploads := ∅; faults := [] |}.

(** Usernames and emails are pairwise distinct. *)
Definition unique_users (w : World) : Prop :=
  NoDup (map u_email (users w)) /\ NoDup (map u_username (users w)).

(** Category ids are pairwise distinct and none is above the table's
    sequence counter. *)
Definition category_ids_ok (w : World) : Prop :=
  NoDup (map c_id (categories w)) /\
  Forall (fun c => c_id c <= categories_seq w) (categories w).

(** Two worlds with the same tables, counters and files. *)
Definition same_data (w w' : World) : Prop :=
  users w' = users w /\ users_seq w' = users_seq w /\
  categories w' = categories w /\ categories_seq w' = categories_seq w /\
  uploads w' = uploads w.

(** A computation that takes every world to one related to it by [R]. *)
Definition respects {A} (R : World -> World -> Prop) (m : M A) : Prop :=
  forall w, R w (m w).2.

(** A computation that never lets an exception out. *)
Definition replies {A} (m : M A) : Prop :=
  forall w, exists a w', m w = (Ok a, w').

(** Two worlds that agree on what [proj] reads. *)
Definition keeps {X} (proj : World -> X) (w w' : World) : Prop :=
  proj w' = proj w.

Definition user_data (w : World) : list user_row * Z :=
  (users w, users_seq w).

Definition category_data (w : World) : list category_row * Z :=
  (categories w, categories_seq w).

(** [a] may come before [b] in a list that is newest first. *)
Definition newest_first (a b : category_row) : Prop :=
  c_created_at b <= c_created_at a.

(** A computation whose every result satisfies [Q]. *)
Definition ensures {A} (Q : A -> Prop) (m : M A) : Prop :=
  forall w a w', m w = (Ok a, w') -> Q a.

(** More requests against the seeded store. *)
Definition header_without_token : request :=
  with_authorization (Some "Bearer") delete_summer.

Definition forged_token_request : request :=
  with_authorization (Some "Bearer forged") delete_summer.

Definition token_scheme_request : request :=
  with_authorization (Some "Token key.admin") delete_summer.

Definition admin_login : request :=
  with_credentials None (Some "admin@example.com") (JStr "password123")
    sample_request.

Definition new_user_register : request :=
  with_credentials (Some "newcomer") (Some "newcomer@example.com")
    (JStr "secret") sample_request.

Definition rival_register : request :=
  with_credentials (Some "rival") (Some "newcomer@example.com")
    (JStr "other") sample_request.

Definition rename_to_winter : request :=
  with_category 1 (Some "Winter Collection") JUndefined None
    sample_request.

Definition delete_unknown : request :=
  with_category 99 None JUndefined None sample_request.

Definition create_summer_with_image : request :=
  with_category 0 (Some "Summer Clothes") (JNum 3) (Some jpeg_part)
    sample_request.

Definition create_posters_with_image : request :=
  with_category 0 (Some "Posters") (JNum 4) (Some jpeg_part)
    sample_request.

Definition delete_seventh : request :=
  with_category 7 None JUndefined None sample_request.



Section Libraries.

(** bcryptjs *)
Variable bcrypt_genSalt : env -> Z -> string.
Variable bcrypt_hash : string -> string -> string.
Variable bcrypt_compare : string -> string -> bool.

(** jsonwebtoken: [sign(payload, secret, { expiresIn })] and
    [verify(token, secret)], at the time of the call. *)
Variable jwt_sign : Z -> jwt_payload -> option string -> string
                    -> outcome string.
Variable jwt_verify : Z -> string -> option string -> outcome jwt_payload.

(** [path.extname] *)
Variable extname : string -> string.

(** [bcrypt.hash(s, salt)] and [bcrypt.compare(s, hash)] on whatever value
    the body carries: anything but a string is refused with
    [Error('Illegal arguments: ...')], which rejects the awaited
    promise. *)
Definition bcrypt_hash_checked (s : jsval) (salt : string) : M string :=
  match s with
  | JStr s => mret (bcrypt_hash s salt)
  | _ => throw (Error "Illegal arguments")
  end.

Definition bcrypt_compare_checked (s : jsval) (hash : string) : M bool :=
  match s with
  | JStr s => mret (bcrypt_compare s hash)
  | _ => throw (Error "Illegal arguments")
  end.

(** ** middleware/auth.js *)

Definition auth (e : env) (req : request) (next : request -> M reply)
  : M reply :=
  try_catch
    (header ← match authorization req with
              | None =>
                  throw (TypeError
                    "Cannot read properties of undefined (reading 'split')")
              | Some h => mret h
              end;
     let token := split " " header !! 1%nat in
     if negb (truthy_field token) then
       mret (Respond 401
               (Message "No authentication token, authorization denied"))
     else
       decoded ← lift_outcome
                   (jwt_verify (Date_now e) (str token) (JWT_SECRET e));
       next (set_req_user decoded req))
    (fun err => mret (Respond 401 (Message "Token is not valid"))).

(** ** multer: [storage], and [upload.single(name)] *)

Definition storage_filename (e : env) (f : upload_part) : string :=
  let uniqueSuffix :=
    pretty (Date_now e) +:+ "-" +:+ pretty (Math_random_1E9 e) in
  let ext := extname (originalname f) in
  fieldname f +:+ "-" +:+ uniqueSuffix +:+ ext.

Definition store_file (name : string) : M unit := fun w =>
  (Ok tt, set_uploads ({[name]} ∪ uploads w) w).

(** [upload.single(name)].  The parser reports the size limit as soon
    as a part has reached [fileSize] bytes (multer 1.4.5-lts, on busboy
    1.x), so a part of exactly [fileSize] bytes is refused as well. *)
Definition upload_single (name : string) (e : env) (req : request)
    (next : request -> M reply) : M reply :=
  match part req with
  | None => next req
  | Some f =>
      if negb (String.eqb (fieldname f) name) then
        mret (NextError (MulterError "LIMIT_UNEXPECTED_FILE"))
      else
        match fileFilter f with
        | Throw err => mret (NextError err)
        | Ok false => next req
        | Ok true =>
            if fileSize <=? size f then
              mret (NextError (MulterError "LIMIT_FILE_SIZE"))
            else
              _ ← store_file (storage_filename e f);
              next (set_req_file {| filename := storage_filename e f |} req)
        end
  end.

(** ** routes/auth.js *)

Definition server_error (err : exn) : M reply :=
  mret (Respond 500 (Message "Server error")).

(** POST api/auth/register *)
Definition register (e : env) (req : request) : M reply :=
  let username := body_username req in
  let email := body_email req in
  let password := body_password req in
  if negb (truthy_field username) || negb (truthy_field email)
     || negb (truthy password) then
    mret (Respond 400 (Message "Please enter all fields"))
  else
    try_catch
      (_ ← getDb;
       existingUserByEmail ← db_get_user_by_email (str email);
       if existingUserByEmail is Some _ then
         mret (Respond 400 (Message "Email already in use"))
       else
         existingUserByUsername ← db_get_user_by_username (str username);
         if existingUserByUsername is Some _ then
           mret (Respond 400 (Message "Username already taken"))
         else
           let salt := bcrypt_genSalt e 10 in
           hash ← bcrypt_hash_checked password salt;
           result ← db_insert_user e (str username) (str email) hash;
           mret (Respond 201
                   (Registered "Registration successful! Please log in.")))
      server_error.

(** POST api/auth/login *)
Definition login (e : env) (req : request) : M reply :=
  let email := body_email req in
  let password := body_password req in
  if negb (truthy_field email) || negb (truthy password) then
    mret (Respond 400 (Message "Please enter all fields"))
  else
    try_catch
      (_ ← getDb;
       user ← db_get_user_by_email (str email);
       match user with
       | None => mret (Respond 400 (Message "Invalid credentials"))
       | Some user =>
           isMatch ← bcrypt_compare_checked password (u_password user);
           if negb isMatch then
             mret (Respond 400 (Message "Invalid credentials"))
           else
             token ← lift_outcome
                       (jwt_sign (Date_now e)
                          {| jwt_id := u_id user;
                             jwt_username := u_username user;
                             jwt_email := str email |}
                          (JWT_SECRET e) "1h");
             mret (Respond 200
                     (LoginOk token
                        {| pu_id := u_id user;
                           pu_username := u_username user;
                           pu_email := u_email user |}))
       end)
      server_error.

(** GET api/auth/user *)
Definition get_user (e : env) (req : request) : M reply :=
  try_catch
    (_ ← getDb;
     claims ← match req_user req with
              | None =>
                  throw (TypeError
                    "Cannot read properties of undefined (reading 'id')")
              | Some p => mret p
              end;
     user ← db_get_user_by_id (jwt_id claims);
     match user with
     | None => mret (Respond 404 (Message "User not found"))
     | Some user =>
         mret (Respond 200
                 (UserJson {| pu_id := u_id user;
                              pu_username := u_username user;
                              pu_email := u_email user |}))
     end)
    server_error.

(** ** routes/categories.js *)

Definition transform (category : category_row) : category_json :=
  {| j_id := c_id category;
     j_name := c_name category;
     j_itemCount := c_item_count category;
     j_image := uploads_path (c_image category);
     j_createdAt := c_created_at category;
     j_updatedAt := c_updated_at category |}.

(** GET api/categories *)
Definition list_categories (e : env) (req : request) : M reply :=
  try_catch
    (_ ← getDb;
     categories ← db_all_categories;
     let transformedCategories := map transform categories in
     mret (Respond 200 (CategoriesJson transformedCategories)))
    server_error.

(** POST api/categories *)
Definition create_category (e : env) (req : request) : M reply :=
  try_catch
    (let name := body_name req in
     let itemCount := body_itemCount req in
     if negb (truthy_field name) then
       mret (Respond 400 (Message "Category name is required"))
     else
       _ ← getDb;
       existingCategory ← db_get_category_by_name (str name);
       if existingCategory is Some _ then
         mret (Respond 400 (Message "Category already exists"))
       else
         let imageFilename := filename <$> req_file req in
         lastID ← db_insert_category e (str name) (js_or itemCount (JNum 0))
                    imageFilename;
         newCategory ← db_get_category_by_id lastID;
         match newCategory with
         | None =>
             throw (TypeError
               "Cannot read properties of undefined (reading 'id')")
         | Some newCategory =>
             mret (Respond 201
                     (CategoryJson
                        {| j_id := c_id newCategory;
                           j_name := c_name newCategory;
                           j_itemCount := c_item_count newCategory;
                           j_image := uploads_path imageFilename;
                           j_createdAt := c_created_at newCategory;
                           j_updatedAt := c_updated_at newCategory |}))
         end)
    server_error.

(** PUT api/categories/:id *)
Definition update_category (e : env) (req : request) : M reply :=
  try_catch
    (let id := params_id req in
     let name := body_name req in
     let itemCount := body_itemCount req in
     _ ← getDb;
     category ← db_get_category_by_id id;
     match category with
     | None => mret (Respond 404 (Message "Category not found"))
     | Some category =>
         let imageFilename :=
           match req_file req with
           | Some f => Some (filename f)
           | None => c_image category
           end in
         _ ← db_update_category e
               (if truthy_field name then str name else c_name category)
               (match itemCount with
                | JUndefined => js_of_sql (c_item_count category)
                | _ => itemCount
                end)
               imageFilename id;
         updatedCategory ← db_get_category_by_id id;
         match updatedCategory with
         | None =>
             throw (TypeError
               "Cannot read properties of undefined (reading 'id')")
         | Some updatedCategory =>
             mret (Respond 200 (CategoryJson (transform updatedCategory)))
         end
     end)
    server_error.

(** DELETE api/categories/:id *)
Definition delete_category (e : env) (req : request) : M reply :=
  try_catch
    (let id := params_id req in
     _ ← getDb;
     category ← db_get_category_by_id id;
     match category with
     | None => mret (Respond 404 (Message "Category not found"))
     | Some category =>
         _ ← (if truthy_field (c_image category) then
                let imagePath := str (c_image category) in
                present ← fs_existsSync imagePath;
                if (present : bool) then fs_unlinkSync imagePath else mret tt
              else mret tt);
         _ ← db_delete_category id;
         mret (Respond 200 (Message "Category deleted successfully"))
     end)
    server_error.

(** ** The routes: each handler behind its middleware *)

Inductive route :=
| PostRegister
| PostLogin
| GetUser
| GetCategories
| PostCategories
| PutCategory
| DeleteCategory.

Definition serve (r : route) (e : env) (req : request) : M reply :=
  match r with
  | PostRegister => register e req
  | PostLogin => login e req
  | GetUser => auth e req (get_user e)
  | GetCategories => auth e req (list_categories e)
  | PostCategories =>
      auth e req (fun req => upload_single "image" e req (create_category e))
  | PutCategory =>
      auth e req (fun req => upload_single "image" e req (update_category e))
  | DeleteCategory => auth e req (delete_category e)
  end.

(** The two stretches of [create_category] that the lookup's [await]
    separates: up to the duplicate check, and from the insert on. *)
Definition create_lookup (e : env) (req : request) : M (option reply) :=
  try_catch
    (let name := body_name req in
     if negb (truthy_field name) then
       mret (Some (Respond 400 (Message "Category name is required")))
     else
       _ ← getDb;
       existingCategory ← db_get_category_by_name (str name);
       if existingCategory is Some _ then
         mret (Some (Respond 400 (Message "Category already exists")))
       else mret None)
    (fun err => r ← server_error err; mret (Some r)).

Definition create_insert (e : env) (req : request) : M reply :=
  try_catch
    (let name := body_name req in
     let itemCount := body_itemCount req in
     let imageFilename := filename <$> req_file req in
     lastID ← db_insert_category e (str name) (js_or itemCount (JNum 0))
                imageFilename;
     newCategory ← db_get_category_by_id lastID;
     match newCategory with
     | None =>
         throw (TypeError
           "Cannot read properties of undefined (reading 'id')")
     | Some newCategory =>
         mret (Respond 201
                 (CategoryJson
                    {| j_id := c_id newCategory;
                       j_name := c_name newCategory;
                       j_itemCount := c_item_count newCategory;
                       j_image := uploads_path imageFilename;
                       j_createdAt := c_created_at newCategory;
                       j_updatedAt := c_updated_at newCategory |}))
     end)
    server_error.

(** Two create requests whose lookups both run before either insert. *)
Definition create_interleaved (e1 e2 : env) (req1 req2 : request)
  : M (reply * reply) :=
  l1 ← create_lookup e1 req1;
  l2 ← create_lookup e2 req2;
  r1 ← (if l1 is Some r then mret r else create_insert e1 req1);
  r2 ← (if l2 is Some r then mret r else create_insert e2 req2);
  mret (r1, r2).

(** A request is authenticated when its header has a non-empty second
    piece that the token library verifies. *)
Definition authenticated (e : env) (req : request) (p : jwt_payload)
  : Prop :=
  exists header token,
    authorization req = Some header /\
    split " " header !! 1%nat = Some token /\
    token <> "" /\
    jwt_verify (Date_now e) token (JWT_SECRET e) = Ok p.

(** The store is healthy when no failure is planned. *)
Definition healthy (w : World) : Prop := faults w = [].

Definition without_authorization (r : request) : request :=
  {| authorization := None; params_id := params_id r;
     body_username := body_username r; body_email := body_email r;
     body_password := body_password r; body_name := body_name r;
     body_itemCount := body_itemCount r; part := part r;
     req_file := req_file r; req_user := req_user r |}.



(** The row [create_category] inserts. *)
Definition created_row (e : env) (req : request) (w : World)
  : category_row :=
  {| c_id := next_rowid (categories_seq w) (map c_id (categories w));
     c_name := str (body_name req);
     c_item_count := bind_param (js_or (body_itemCount req) (JNum 0));
     c_image := filename <$> req_file req;
     c_created_at := CURRENT_TIMESTAMP e;
     c_updated_at := CURRENT_TIMESTAMP e |}.

(** The row [update_category] leaves in place of [c]. *)
Definition merged_row (e : env) (req : request) (c : category_row)
  : category_row :=
  update_row e
    (if truthy_field (body_name req) then str (body_name req)
     else c_name c)
    (match body_itemCount req with
     | JUndefined => js_of_sql (c_item_count c)
     | _ => body_itemCount req
     end)
    (match req_file req with
     | Some f => Some (filename f)
     | None => c_image c
     end)
    (params_id req) c.

(** The uploads directory once [delete_category] has looked after the
    image of [c]. *)
Definition without_image (c : category_row) (fs : gset string)
  : gset string :=
  if truthy_field (c_image c) then fs ∖ {[str (c_image c)]} else fs.

(** An upload that [upload.single('image')] lets through: none, or an
    image part that stays below the limit. *)
Definition accepted_upload (req : request) : bool :=
  match part req with
  | None => true
  | Some f =>
      String.eqb (fieldname f) "image"
      && String.prefix "image/" (mimetype f)
      && (size f <? fileSize)
  end.

(** An upload that the filter or the size limit turns down. *)
Definition refused_upload (f : upload_part) : Prop :=
  String.prefix "image/" (mimetype f) = false \/ fileSize <= size f.

(** The request and the world as [upload.single('image')] hands them
    on. *)
Definition after_upload (e : env) (req : request) : request :=
  match part req with
  | None => req
  | Some f => set_req_file {| filename := storage_filename e f |} req
  end.

Definition stored_upload (e : env) (req : request) (w : World) : World :=
  match part req with
  | None => w
  | Some f => set_uploads ({[storage_filename e f]} ∪ uploads w) w
  end.

(** A status 400 reply with a message, the shape of a validation
    error. *)
Definition is_ValidationError (r : reply) : Prop :=
  exists m, r = Respond 400 (Message m).


(** A computation that removes no file from the uploads directory. *)
Definition keeps_files {A} (m : M A) : Prop :=
  forall w, uploads w ⊆ uploads (m w).2.

(** The routes that sit behind [auth]. *)
Definition protected (r : route) : bool :=
  match r with
  | PostRegister | PostLogin => false
  | _ => true
  end.

(** The routes that only read. *)
Definition read_only (r : route) : bool :=
  match r with
  | PostLogin | GetUser | GetCategories => true
  | _ => false
  end.

(** What makes [auth] turn a request down: no header, no second piece
    in the header, or a token that does not verify. *)
Definition guard_rejects (e : env) (req : request) : Prop :=
  authorization req = None \/
  (exists header,
     authorization req = Some header /\
     truthy_field (split " " header !! 1%nat) = false) \/
  (exists header token x,
     authorization req = Some header /\
     split " " header !! 1%nat = Some token /\
     token <> "" /\
     jwt_verify (Date_now e) token (JWT_SECRET e) = Throw x).

(** The two stretches of [register] that the lookups' [await]s separate
    from the insert: validation and both lookups, then hashing and the
    insert. *)
Definition register_lookup (e : env) (req : request) : M (option reply) :=
  let username := body_username req in
  let email := body_email req in
  let password := body_password req in
  if negb (truthy_field username) || negb (truthy_field email)
     || negb (truthy password) then
    mret (Some (Respond 400 (Message "Please enter all fields")))
  else
    try_catch
      (_ ← getDb;
       existingUserByEmail ← db_get_user_by_email (str email);
       if existingUserByEmail is Some _ then
         mret (Some (Respond 400 (Message "Email already in use")))
       else
         existingUserByUsername ← db_get_user_by_username (str username);
         if existingUserByUsername is Some _ then
           mret (Some (Respond 400 (Message "Username already taken")))
         else mret None)
      (fun err => r ← server_error err; mret (Some r)).

Definition register_insert (e : env) (req : request) : M reply :=
  try_catch
    (let salt := bcrypt_genSalt e 10 in
     hash ← bcrypt_hash_checked (body_password req) salt;
     result ← db_insert_user e (str (body_username req))
                (str (body_email req)) hash;
     mret (Respond 201
             (Registered "Registration successful! Please log in.")))
    server_error.


(** The row [register] inserts. *)
Definition registered_row (e : env) (req : request) (w : World)
  : user_row :=
  {| u_id := next_rowid (users_seq w) (map u_id (users w));
     u_username := str (body_username req);
     u_email := str (body_email req);
     u_password := bcrypt_hash (str (text (body_password req)))
                     (bcrypt_genSalt e 10);
     u_created_at := CURRENT_TIMESTAMP e |}.

(** database/init.js, [initDb]: open the store, switch foreign keys on,
    create the two tables if they are missing, and seed each table that
    is empty.  Both tables are part of every world, so the PRAGMA and
    the two CREATE TABLE IF NOT EXISTS statements are store calls that
    change nothing; the directory checks and the log lines are left out.
    [bcrypt.hash(s, 10)] generates its salt with 10 rounds. *)
Definition initDb (e : env) : M unit :=
  _ ← store_call;
  _ ← store_call;
  _ ← store_call;
  _ ← store_call;
  userCount ← db_count_users;
  _ ← (if userCount =? 0 then
         let hashedPassword :=
           bcrypt_hash "password123" (bcrypt_genSalt e 10) in
         _ ← db_insert_user e "admin" "admin@example.com" hashedPassword;
         mret tt
       else mret tt);
  categoryCount ← db_count_categories;
  if categoryCount =? 0 then
    _ ← store_call;
    _ ← insert_each e sampleCategories_data;
    store_call
  else mret tt.

(** A run of requests, one after the other, each under its own plan of
    store failures. *)
Fixpoint run_requests (l : list (route * env * request * list bool))
    (w : World) : World :=
  match l with
  | [] => w
  | (r, e, req, plan) :: rest =>
      run_requests rest (serve r e req (with_faults plan w)).2
  end.

(** The replies a route can give: a response with one of six statuses,
    or, on the two routes that take an upload, an error handed on by
    multer. *)
Definition known_reply (r : route) (rep : reply) : Prop :=
  match rep with
  | Respond status _ =>
      In status [200; 201; 400; 401; 404; 500]
  | NextError _ => r = PostCategories \/ r = PutCategory
  end.

(** The store [initDb] leaves when it starts from no rows at all. *)
Definition seeded_category (e : env) (id : Z)
    (d : string * Z * string) : category_row :=
  {| c_id := id; c_name := d.1.1; c_item_count := SqlInt d.1.2;
     c_image := Some d.2; c_created_at := CURRENT_TIMESTAMP e;
     c_updated_at := CURRENT_TIMESTAMP e |}.

(** The rows the sample data become on a table that holds none, under
    the ids that follow the counter [seq]. *)
Fixpoint seeded_rows (e : env) (seq : Z) (l : list (string * Z * string))
  : list category_row :=
  match l with
  | [] => []
  | d :: rest => seeded_category e (seq + 1) d :: seeded_rows e (seq + 1) rest
  end.

(** The user [initDb] inserts into a users table that holds no row. *)
Definition seeded_admin (e : env) (w : World) : user_row :=
  {| u_id := users_seq w + 1; u_username := "admin";
     u_email := "admin@example.com";
     u_password := bcrypt_hash "password123" (bcrypt_genSalt e 10);
     u_created_at := CURRENT_TIMESTAMP e |}.

(** The libraries play no part in a proof about the store alone. *)
Ltac forget_libraries :=
  try clear bcrypt_genSalt; try clear bcrypt_hash; try clear bcrypt_compare;
  try clear jwt_sign; try clear jwt_verify; try clear extname.

(** ** The monad *)

Lemma bind_run {A B} (m : M A) (f : A -> M B) (w w' : World) (a : A) :
  m w = (Ok a, w') -> (m ≫= f) w = f a w'.
Proof. intros H. unfold mbind, M_bind. now rewrite H. Qed.

Lemma bind_throw {A B} (m : M A) (f : A -> M B) (w w' : World) (x : exn) :
  m w = (Throw x, w') -> (m ≫= f) w = (Throw x, w').
Proof. intros H. unfold mbind, M_bind. now rewrite H. Qed.

Lemma try_catch_run {A} (m : M A) (h : exn -> M A) (w w' : World) (a : A) :
  m w = (Ok a, w') -> try_catch m h w = (Ok a, w').
Proof. intros H. unfold try_catch. now rewrite H. Qed.

Lemma try_catch_throw {A} (m : M A) (h : exn -> M A) (w w' : World)
    (x : exn) :
  m w = (Throw x, w') -> try_catch m h w = h x w'.
Proof. intros H. unfold try_catch. now rewrite H. Qed.

(** A handler that is one [try]/[catch] with a catch that responds never
    throws. *)
Lemma try_catch_total {A} (m : M A) (h : exn -> M A) (w : World) :
  (forall x w1, exists a w2, h x w1 = (Ok a, w2)) ->
  exists a w', try_catch m h w = (Ok a, w').
Proof.
  intros Hh. unfold try_catch.
  destruct (m w) as [[a|x] w1]; [now exists a, w1 | apply Hh].
Qed.

Lemma server_error_run (x : exn) (w : World) :
  exists a w', server_error x w = (Ok a, w').
Proof. now eexists _, _. Qed.

(** ** The store on a healthy world *)

Lemma store_call_healthy (w : World) :
  healthy w -> store_call w = (Ok tt, w).
Proof. unfold healthy, store_call. now intros ->. Qed.

Lemma getDb_healthy (w : World) : healthy w -> getDb w = (Ok tt, w).
Proof. apply store_call_healthy. Qed.

Lemma db_get_user_by_email_healthy (email : string) (w : World) :
  healthy w ->
  db_get_user_by_email email w
  = (Ok (select_user_by_email email (users w)), w).
Proof.
  intros H. unfold db_get_user_by_email.
  now rewrite (bind_run _ _ _ _ _ (store_call_healthy w H)).
Qed.

Lemma db_get_user_by_username_healthy (username : string) (w : World) :
  healthy w ->
  db_get_user_by_username username w
  = (Ok (select_user_by_username username (users w)), w).
Proof.
  intros H. unfold db_get_user_by_username.
  now rewrite (bind_run _ _ _ _ _ (store_call_healthy w H)).
Qed.

Lemma db_get_category_by_name_healthy (name : string) (w : World) :
  healthy w ->
  db_get_category_by_name name w
  = (Ok (select_category_by_name name (categories w)), w).
Proof.
  intros H. unfold db_get_category_by_name.
  now rewrite (bind_run _ _ _ _ _ (store_call_healthy w H)).
Qed.

Lemma db_get_category_by_id_healthy (id : Z) (w : World) :
  healthy w ->
  db_get_category_by_id id w
  = (Ok (select_category_by_id id (categories w)), w).
Proof.
  intros H. unfold db_get_category_by_id.
  now rewrite (bind_run _ _ _ _ _ (store_call_healthy w H)).
Qed.

(** ** The guard *)

Lemma auth_absent_header (e : env) (req : request)
    (next : request -> M reply) (w : World) :
  authorization req = None ->
  auth e req next w = (Ok (Respond 401 (Message "Token is not valid")), w).
Proof. intros H. unfold auth. now rewrite H. Qed.

Lemma auth_no_token (e : env) (req : request) (next : request -> M reply)
    (w : World) (header : string) :
  authorization req = Some header ->
  truthy_field (split " " header !! 1%nat) = false ->
  auth e req next w
  = (Ok (Respond 401
           (Message "No authentication token, authorization denied")), w).
Proof.
  intros H Ht. unfold auth. rewrite H.
  unfold try_catch, mbind, M_bind, mret, M_ret. simpl. now rewrite Ht.
Qed.

Lemma auth_invalid_token (e : env) (req : request)
    (next : request -> M reply) (w : World) (header token : string)
    (x : exn) :
  authorization req = Some header ->
  split " " header !! 1%nat = Some token ->
  token <> "" ->
  jwt_verify (Date_now e) token (JWT_SECRET e) = Throw x ->
  auth e req next w = (Ok (Respond 401 (Message "Token is not valid")), w).
Proof.
  intros H Ht Hne Hv. unfold auth. rewrite H.
  unfold try_catch, mbind, M_bind, mret, M_ret, lift_outcome. simpl.
  rewrite Ht. simpl.
  destruct (String.eqb_spec token ""); [contradiction|]. simpl.
  now rewrite Hv.
Qed.

Lemma auth_pass (e : env) (req : request) (next : request -> M reply)
    (w w' : World) (p : jwt_payload) (r : reply) :
  authenticated e req p ->
  next (set_req_user p req) w = (Ok r, w') ->
  auth e req next w = (Ok r, w').
Proof.
  intros (header & token & H & Ht & Hne & Hv) Hn. unfold auth.
  rewrite H.
  unfold try_catch, mbind, M_bind, mret, M_ret, lift_outcome. simpl.
  rewrite Ht. simpl.
  destruct (String.eqb_spec token ""); [contradiction|]. simpl.
  now rewrite Hv, Hn.
Qed.

(** ** Registration and login *)

(** A password that is non-empty text passes the [!password] test and
    the argument check of bcryptjs. *)
Lemma text_truthy (v : jsval) :
  truthy_field (text v) = true -> truthy v = true.
Proof. now destruct v. Qed.

Lemma bcrypt_hash_text (v : jsval) (salt : string) (w : World) :
  truthy_field (text v) = true ->
  bcrypt_hash_checked v salt w = (Ok (bcrypt_hash (str (text v)) salt), w).
Proof. now destruct v. Qed.

Lemma bcrypt_compare_text (v : jsval) (h : string) (w : World) :
  truthy_field (text v) = true ->
  bcrypt_compare_checked v h w = (Ok (bcrypt_compare (str (text v)) h), w).
Proof. now destruct v. Qed.

(** Any other truthy value is refused by both. *)
Lemma bcrypt_hash_refuses (v : jsval) (salt : string) (w : World) :
  text v = None ->
  bcrypt_hash_checked v salt w = (Throw (Error "Illegal arguments"), w).
Proof. now destruct v. Qed.

Lemma bcrypt_compare_refuses (v : jsval) (h : string) (w : World) :
  text v = None ->
  bcrypt_compare_checked v h w = (Throw (Error "Illegal arguments"), w).
Proof. now destruct v. Qed.




(** ** The store with a failure plan *)

Lemma store_call_passes (w : World) (rest : list bool) :
  faults w = false :: rest -> store_call w = (Ok tt, with_faults rest w).
Proof. unfold store_call. now intros ->. Qed.

Lemma store_call_fails (w : World) (rest : list bool) :
  faults w = true :: rest ->
  store_call w = (Throw (SqliteError "SQLITE_ERROR"), with_faults rest w).
Proof. unfold store_call. now intros ->. Qed.

(** ** Row identifiers *)

Lemma fold_max_bound (seq : Z) (ids : list Z) (x : Z) :
  In x ids -> x <= fold_right Z.max seq ids.
Proof. forget_libraries.
  induction ids as [|y ids IH]; simpl; [tauto|].
  intros [-> | H]; [lia | specialize (IH H); lia].
Qed.

Lemma next_rowid_fresh (seq : Z) (cs : list category_row)
    (c : category_row) :
  In c cs -> c_id c <> next_rowid seq (map c_id cs).
Proof.
  intros H. unfold next_rowid.
  pose proof (fold_max_bound seq (map c_id cs) (c_id c) (in_map c_id _ _ H)).
  lia.
Qed.

Lemma select_category_by_id_fresh (id : Z) (cs : list category_row)
    (row : category_row) :
  (forall c, In c cs -> c_id c <> id) ->
  c_id row = id ->
  select_category_by_id id (cs ++ [row]) = Some row.
Proof.
  intros Hfresh Hid. unfold select_category_by_id.
  induction cs as [|c cs IH]; simpl.
  - now rewrite (proj2 (Z.eqb_eq _ _) Hid).
  - rewrite (proj2 (Z.eqb_neq _ _) (Hfresh c (or_introl eq_refl))).
    apply IH. intros c' H. apply Hfresh. now right.
Qed.

Lemma select_category_by_id_updated (e : env) (name : string)
    (item_count : jsval) (image : option string) (id : Z)
    (cs : list category_row) :
  select_category_by_id id (map (update_row e name item_count image id) cs)
  = update_row e name item_count image id <$> select_category_by_id id cs.
Proof.
  unfold select_category_by_id.
  induction cs as [|c cs IH]; simpl; [reflexivity|].
  unfold update_row at 1. destruct (c_id c =? id) eqn:E; simpl.
  - rewrite E. simpl. unfold update_row. now rewrite E.
  - now rewrite E.
Qed.

Lemma select_category_by_id_deleted (id : Z) (cs : list category_row) :
  select_category_by_id id
    (List.filter (fun c => negb (c_id c =? id)) cs) = None.
Proof.
  unfold select_category_by_id.
  induction cs as [|c cs IH]; simpl; [reflexivity|].
  destruct (c_id c =? id) eqn:E; simpl; [exact IH|]. now rewrite E.
Qed.

Lemma select_category_by_id_id (id : Z) (cs : list category_row)
    (c : category_row) :
  select_category_by_id id cs = Some c -> c_id c = id.
Proof.
  unfold select_category_by_id. intros H.
  apply find_some in H. now apply Z.eqb_eq.
Qed.

(** ** The upload middleware *)

Lemma upload_single_accepted (e : env) (req : request)
    (next : request -> M reply) (w : World) :
  accepted_upload req = true ->
  upload_single "image" e req next w
  = next (after_upload e req) (stored_upload e req w).
Proof.
  unfold accepted_upload, upload_single, after_upload, stored_upload.
  destruct (part req) as [f|]; [|reflexivity].
  intros H. apply andb_prop in H as [H Hs]. apply andb_prop in H as [Hn Hm].
  rewrite Hn. simpl. unfold fileFilter. rewrite Hm.
  apply Z.ltb_lt in Hs. rewrite (proj2 (Z.leb_gt _ _) Hs).
  reflexivity.
Qed.

Lemma upload_single_refused (e : env) (req : request)
    (next : request -> M reply) (w : World) (f : upload_part) :
  part req = Some f ->
  refused_upload f ->
  exists x,
    upload_single "image" e req next w = (Ok (NextError x), w) /\
    (x = Error "Not an image! Please upload only images." \/
     x = MulterError "LIMIT_FILE_SIZE" \/
     x = MulterError "LIMIT_UNEXPECTED_FILE").
Proof.
  intros Hp Hr. unfold upload_single. rewrite Hp.
  destruct (String.eqb (fieldname f) "image"); simpl; [|eauto].
  unfold fileFilter.
  destruct (String.prefix "image/" (mimetype f)) eqn:Hm; [|eauto].
  destruct Hr as [Hr | Hr]; [congruence|].
  rewrite (proj2 (Z.leb_le _ _) Hr). eauto.
Qed.

(** ** The category handlers on a healthy store *)

Lemma db_insert_category_healthy (e : env) (name : string)
    (item_count : jsval) (image : option string) (w : World) :
  healthy w ->
  db_insert_category e name item_count image w
  = (Ok (next_rowid (categories_seq w) (map c_id (categories w))),
     set_categories
       (categories w ++
        [{| c_id := next_rowid (categories_seq w) (map c_id (categories w));
            c_name := name; c_item_count := bind_param item_count;
            c_image := image; c_created_at := CURRENT_TIMESTAMP e;
            c_updated_at := CURRENT_TIMESTAMP e |}])
       (next_rowid (categories_seq w) (map c_id (categories w))) w).
Proof.
  intros H. unfold db_insert_category.
  now rewrite (bind_run _ _ _ _ _ (store_call_healthy w H)).
Qed.

Lemma create_category_created (e : env) (req : request) (w : World) :
  healthy w ->
  truthy_field (body_name req) = true ->
  select_category_by_name (str (body_name req)) (categories w) = None ->
  create_category e req w
  = (Ok (Respond 201
           (CategoryJson
              {| j_id := c_id (created_row e req w);
                 j_name := c_name (created_row e req w);
                 j_itemCount := c_item_count (created_row e req w);
                 j_image := uploads_path (filename <$> req_file req);
                 j_createdAt := CURRENT_TIMESTAMP e;
                 j_updatedAt := CURRENT_TIMESTAMP e |})),
     set_categories (categories w ++ [created_row e req w])
       (c_id (created_row e req w)) w).
Proof.
  intros Hw Hn Hfree. unfold create_category. apply try_catch_run.
  rewrite Hn. simpl.
  rewrite (bind_run _ _ _ _ _ (getDb_healthy w Hw)).
  rewrite (bind_run _ _ _ _ _ (db_get_category_by_name_healthy _ w Hw)).
  rewrite Hfree.
  rewrite (bind_run _ _ _ _ _ (db_insert_category_healthy e _ _ _ w Hw)).
  erewrite bind_run; [|apply db_get_category_by_id_healthy; exact Hw].
  unfold created_row. simpl.
  rewrite select_category_by_id_fresh; [reflexivity| |reflexivity].
  intros c Hc. now apply next_rowid_fresh.
Qed.

Lemma create_category_duplicate (e : env) (req : request) (w : World)
    (c : category_row) :
  healthy w ->
  truthy_field (body_name req) = true ->
  select_category_by_name (str (body_name req)) (categories w) = Some c ->
  create_category e req w
  = (Ok (Respond 400 (Message "Category already exists")), w).
Proof.
  intros Hw Hn Hc. unfold create_category. apply try_catch_run.
  rewrite Hn. simpl.
  rewrite (bind_run _ _ _ _ _ (getDb_healthy w Hw)).
  rewrite (bind_run _ _ _ _ _ (db_get_category_by_name_healthy _ w Hw)).
  now rewrite Hc.
Qed.

Lemma db_update_category_healthy (e : env) (name : string)
    (item_count : jsval) (image : option string) (id : Z) (w : World) :
  healthy w ->
  db_update_category e name item_count image id w
  = (Ok tt,
     set_categories
       (map (update_row e name item_count image id) (categories w))
       (categories_seq w) w).
Proof.
  intros H. unfold db_update_category.
  now rewrite (bind_run _ _ _ _ _ (store_call_healthy w H)).
Qed.

Lemma update_category_updated (e : env) (req : request) (w : World)
    (c : category_row) :
  healthy w ->
  select_category_by_id (params_id req) (categories w) = Some c ->
  exists w',
    update_category e req w
    = (Ok (Respond 200 (CategoryJson (transform (merged_row e req c)))),
       w') /\
    select_category_by_id (params_id req) (categories w')
    = Some (merged_row e req c) /\
    uploads w' = uploads w /\ healthy w'.
Proof.
  intros Hw Hc. eexists. split; [|split; [|split]].
  - unfold update_category. apply try_catch_run.
    rewrite (bind_run _ _ _ _ _ (getDb_healthy w Hw)).
    rewrite (bind_run _ _ _ _ _ (db_get_category_by_id_healthy _ w Hw)).
    rewrite Hc.
    rewrite (bind_run _ _ _ _ _
               (db_update_category_healthy e _ _ _ _ w Hw)).
    erewrite bind_run; [|apply db_get_category_by_id_healthy; exact Hw].
    cbn [categories set_categories].
    rewrite select_category_by_id_updated, Hc.
    reflexivity.
  - cbn [categories set_categories]. rewrite select_category_by_id_updated, Hc.
    reflexivity.
  - reflexivity.
  - exact Hw.
Qed.

Lemma update_category_missing (e : env) (req : request) (w : World) :
  healthy w ->
  select_category_by_id (params_id req) (categories w) = None ->
  update_category e req w
  = (Ok (Respond 404 (Message "Category not found")), w).
Proof.
  intros Hw Hc. unfold update_category. apply try_catch_run.
  rewrite (bind_run _ _ _ _ _ (getDb_healthy w Hw)).
  rewrite (bind_run _ _ _ _ _ (db_get_category_by_id_healthy _ w Hw)).
  now rewrite Hc.
Qed.

Lemma delete_category_missing (e : env) (req : request) (w : World) :
  healthy w ->
  select_category_by_id (params_id req) (categories w) = None ->
  delete_category e req w
  = (Ok (Respond 404 (Message "Category not found")), w).
Proof.
  intros Hw Hc. unfold delete_category. apply try_catch_run.
  rewrite (bind_run _ _ _ _ _ (getDb_healthy w Hw)).
  rewrite (bind_run _ _ _ _ _ (db_get_category_by_id_healthy _ w Hw)).
  now rewrite Hc.
Qed.

(** The file step of [delete_category]: it never throws, and it leaves
    the directory without the image whether the file was there or not. *)
Lemma remove_image_run (c : category_row) (w : World) :
  (if truthy_field (c_image c) then
     present ← fs_existsSync (str (c_image c));
     if (present : bool) then fs_unlinkSync (str (c_image c)) else mret tt
   else mret tt) w
  = (Ok tt, set_uploads (without_image c (uploads w)) w).
Proof. forget_libraries.
  unfold without_image.
  destruct (truthy_field (c_image c)).
  - unfold mbind, M_bind, fs_existsSync, fs_unlinkSync, mret, M_ret.
    destruct (bool_decide (str (c_image c) ∈ uploads w)) eqn:E.
    + rewrite E. reflexivity.
    + apply bool_decide_eq_false in E. f_equal.
      replace (uploads w ∖ {[str (c_image c)]}) with (uploads w)
        by set_solver.
      now destruct w.
  - unfold mret, M_ret. f_equal. now destruct w.
Qed.

Lemma without_image_gone (c : category_row) (fs : gset string) :
  truthy_field (c_image c) = true ->
  str (c_image c) ∉ without_image c fs.
Proof. unfold without_image. intros ->. set_solver. Qed.

Lemma db_delete_category_healthy (id : Z) (w : World) :
  healthy w ->
  db_delete_category id w
  = (Ok tt,
     set_categories
       (List.filter (fun c => negb (c_id c =? id)) (categories w))
       (categories_seq w) w).
Proof.
  intros H. unfold db_delete_category.
  now rewrite (bind_run _ _ _ _ _ (store_call_healthy w H)).
Qed.

Lemma delete_category_deleted (e : env) (req : request) (w : World)
    (c : category_row) :
  healthy w ->
  select_category_by_id (params_id req) (categories w) = Some c ->
  delete_category e req w
  = (Ok (Respond 200 (Message "Category deleted successfully")),
     set_categories
       (List.filter (fun c => negb (c_id c =? params_id req))
          (categories w))
       (categories_seq w)
       (set_uploads (without_image c (uploads w)) w)).
Proof.
  intros Hw Hc. unfold delete_category. apply try_catch_run.
  rewrite (bind_run _ _ _ _ _ (getDb_healthy w Hw)).
  rewrite (bind_run _ _ _ _ _ (db_get_category_by_id_healthy _ w Hw)).
  rewrite Hc.
  erewrite bind_run; [|apply remove_image_run].
  erewrite bind_run; [|apply db_delete_category_healthy; exact Hw].
  reflexivity.
Qed.

Lemma db_get_category_by_id_passes (id : Z) (w : World)
    (rest : list bool) :
  faults w = false :: rest ->
  db_get_category_by_id id w
  = (Ok (select_category_by_id id (categories w)), with_faults rest w).
Proof.
  intros H. unfold db_get_category_by_id.
  now rewrite (bind_run _ _ _ _ _ (store_call_passes w rest H)).
Qed.

Lemma db_delete_category_fails (id : Z) (w : World) (rest : list bool) :
  faults w = true :: rest ->
  db_delete_category id w
  = (Throw (SqliteError "SQLITE_ERROR"), with_faults rest w).
Proof.
  intros H. unfold db_delete_category.
  now rewrite (bind_throw _ _ _ _ _ (store_call_fails w rest H)).
Qed.

(** The row deletion fails after the lookup went through: the handler
    answers 500, the table is as it was, the image file is gone. *)
Lemma delete_category_row_failure (e : env) (req : request) (w : World)
    (c : category_row) :
  faults w = [false; false; true] ->
  select_category_by_id (params_id req) (categories w) = Some c ->
  exists w',
    delete_category e req w
    = (Ok (Respond 500 (Message "Server error")), w') /\
    categories w' = categories w /\
    uploads w' = without_image c (uploads w).
Proof.
  intros Hf Hc. eexists. split; [|split].
  - unfold delete_category. erewrite try_catch_throw; [reflexivity|].
    unfold getDb.
    rewrite (bind_run _ _ _ _ _ (store_call_passes w _ Hf)).
    erewrite bind_run; [|now apply db_get_category_by_id_passes].
    cbn [categories with_faults]. rewrite Hc.
    erewrite bind_run; [|apply remove_image_run].
    erewrite bind_throw; [reflexivity|].
    now apply db_delete_category_fails.
  - reflexivity.
  - reflexivity.
Qed.

(** ** Handlers never throw *)

Lemma update_category_total (e : env) (req : request) (w : World) :
  exists r w', update_category e req w = (Ok r, w').
Proof. apply try_catch_total, server_error_run. Qed.

Lemma delete_category_total (e : env) (req : request) (w : World) :
  exists r w', delete_category e req w = (Ok r, w').
Proof. apply try_catch_total, server_error_run. Qed.

Lemma create_category_total (e : env) (req : request) (w : World) :
  exists r w', create_category e req w = (Ok r, w').
Proof. apply try_catch_total, server_error_run. Qed.

(** An authenticated request reaches the handler with the decoded
    payload attached. *)
Lemma auth_reaches (e : env) (req : request) (next : request -> M reply)
    (w : World) (p : jwt_payload) :
  authenticated e req p ->
  (exists r w', next (set_req_user p req) w = (Ok r, w')) ->
  auth e req next w = next (set_req_user p req) w.
Proof.
  intros Ha (r & w' & Hn). rewrite Hn. now apply (auth_pass e req next w w' p).
Qed.

Lemma serve_delete_reaches (e : env) (req : request) (w : World)
    (p : jwt_payload) :
  authenticated e req p ->
  serve DeleteCategory e req w = delete_category e (set_req_user p req) w.
Proof.
  intros Ha. simpl. apply auth_reaches; [exact Ha|].
  apply delete_category_total.
Qed.

Lemma serve_put_reaches (e : env) (req : request) (w : World)
    (p : jwt_payload) :
  authenticated e req p ->
  accepted_upload req = true ->
  serve PutCategory e req w
  = update_category e (after_upload e (set_req_user p req))
      (stored_upload e req w).
Proof.
  intros Ha Hu. simpl.
  rewrite (auth_reaches e req _ w p Ha).
  - now rewrite upload_single_accepted.
  - rewrite upload_single_accepted by exact Hu. apply update_category_total.
Qed.

Lemma serve_post_reaches (e : env) (req : request) (w : World)
    (p : jwt_payload) :
  authenticated e req p ->
  accepted_upload req = true ->
  serve PostCategories e req w
  = create_category e (after_upload e (set_req_user p req))
      (stored_upload e req w).
Proof.
  intros Ha Hu. simpl.
  rewrite (auth_reaches e req _ w p Ha).
  - now rewrite upload_single_accepted.
  - rewrite upload_single_accepted by exact Hu. apply create_category_total.
Qed.

(** ** Which computations remove files *)

Lemma keeps_files_ret {A} (a : A) : keeps_files (mret a : M A).
Proof. intros w. reflexivity. Qed.

Lemma keeps_files_throw {A} (x : exn) : keeps_files (throw x : M A).
Proof. intros w. reflexivity. Qed.

Lemma keeps_files_lift {A} (o : outcome A) : keeps_files (lift_outcome o).
Proof. intros w. reflexivity. Qed.

Lemma keeps_files_bind {A B} (m : M A) (f : A -> M B) :
  keeps_files m -> (forall a, keeps_files (f a)) -> keeps_files (m ≫= f).
Proof. forget_libraries.
  intros Hm Hf w. unfold mbind, M_bind.
  specialize (Hm w). destruct (m w) as [[a|x] w1]; simpl in *.
  - specialize (Hf a w1). set_solver.
  - exact Hm.
Qed.

Lemma keeps_files_try_catch {A} (m : M A) (h : exn -> M A) :
  keeps_files m -> (forall x, keeps_files (h x)) ->
  keeps_files (try_catch m h).
Proof. forget_libraries.
  intros Hm Hh w. unfold try_catch.
  specialize (Hm w). destruct (m w) as [[a|x] w1]; simpl in *.
  - exact Hm.
  - specialize (Hh x w1). set_solver.
Qed.

Lemma keeps_files_store_call : keeps_files store_call.
Proof.
  intros w. unfold store_call.
  destruct (faults w) as [|[] rest]; reflexivity.
Qed.

Lemma keeps_files_get_world : keeps_files get_world.
Proof. intros w. reflexivity. Qed.

Lemma keeps_files_store_file (name : string) : keeps_files (store_file name).
Proof. forget_libraries. intros w. simpl. set_solver. Qed.

Lemma keeps_files_server_error (x : exn) : keeps_files (server_error x).
Proof. apply keeps_files_ret. Qed.

(** A store statement reads the world it runs in and writes back a world
    with the same directory. *)
Lemma keeps_files_statement {A} (f : World -> M A) :
  (forall w w0, uploads w = uploads w0 -> uploads w0 ⊆ uploads (f w w0).2) ->
  keeps_files (_ ← store_call; w ← get_world; f w).
Proof. forget_libraries.
  intros Hf w. unfold mbind, M_bind, get_world.
  pose proof (keeps_files_store_call w) as Hs.
  destruct (store_call w) as [[[]|x] w1]; simpl in *; [|exact Hs].
  specialize (Hf w1 w1 eq_refl). set_solver.
Qed.

Create HintDb keeps.

#[local] Hint Resolve keeps_files_ret keeps_files_throw keeps_files_lift
  keeps_files_store_call keeps_files_get_world keeps_files_store_file
  keeps_files_server_error : keeps.

Ltac keeps_step :=
  match goal with
  | |- keeps_files (try_catch _ _) => apply keeps_files_try_catch
  | |- keeps_files (mbind _ _) => apply keeps_files_bind
  | |- keeps_files (if ?b then _ else _) => destruct b
  | |- keeps_files (match ?x with _ => _ end) => destruct x
  | |- forall _, _ => intro
  | |- keeps_files _ => solve [auto with keeps]
  end.

Ltac keeps_statement :=
  apply keeps_files_statement; intros ? ? ?;
  repeat match goal with
         | |- context [match ?x with _ => _ end] => destruct x
         end;
  simpl; set_solver.

Lemma keeps_files_db_get_user_by_email (email : string) :
  keeps_files (db_get_user_by_email email).
Proof. unfold db_get_user_by_email. keeps_statement. Qed.

Lemma keeps_files_db_get_user_by_username (username : string) :
  keeps_files (db_get_user_by_username username).
Proof. unfold db_get_user_by_username. keeps_statement. Qed.

Lemma keeps_files_db_get_user_by_id (id : Z) :
  keeps_files (db_get_user_by_id id).
Proof. unfold db_get_user_by_id. keeps_statement. Qed.

Lemma keeps_files_db_insert_user (e : env) (username email hash : string) :
  keeps_files (db_insert_user e username email hash).
Proof. forget_libraries. unfold db_insert_user. keeps_statement. Qed.

Lemma keeps_files_db_get_category_by_name (name : string) :
  keeps_files (db_get_category_by_name name).
Proof. unfold db_get_category_by_name. keeps_statement. Qed.

Lemma keeps_files_db_get_category_by_id (id : Z) :
  keeps_files (db_get_category_by_id id).
Proof. unfold db_get_category_by_id. keeps_statement. Qed.

Lemma keeps_files_db_insert_category (e : env) (name : string)
    (item_count : jsval) (image : option string) :
  keeps_files (db_insert_category e name item_count image).
Proof. forget_libraries. unfold db_insert_category. keeps_statement. Qed.

Lemma keeps_files_db_update_category (e : env) (name : string)
    (item_count : jsval) (image : option string) (id : Z) :
  keeps_files (db_update_category e name item_count image id).
Proof. forget_libraries. unfold db_update_category. keeps_statement. Qed.

Lemma keeps_files_db_all_categories : keeps_files db_all_categories.
Proof. unfold db_all_categories. keeps_statement. Qed.

Lemma keeps_files_bcrypt_hash_checked (s : jsval) (salt : string) :
  keeps_files (bcrypt_hash_checked s salt).
Proof. destruct s; intros w; reflexivity. Qed.

Lemma keeps_files_bcrypt_compare_checked (s : jsval) (h : string) :
  keeps_files (bcrypt_compare_checked s h).
Proof. destruct s; intros w; reflexivity. Qed.

#[local] Hint Resolve keeps_files_bcrypt_hash_checked
  keeps_files_bcrypt_compare_checked : keeps.

#[local] Hint Resolve keeps_files_db_get_user_by_email
  keeps_files_db_get_user_by_username keeps_files_db_get_user_by_id
  keeps_files_db_insert_user keeps_files_db_get_category_by_name
  keeps_files_db_get_category_by_id keeps_files_db_insert_category
  keeps_files_db_update_category keeps_files_db_all_categories : keeps.

Lemma keeps_files_auth (e : env) (req : request)
    (next : request -> M reply) :
  (forall r, keeps_files (next r)) -> keeps_files (auth e req next).
Proof. intros Hn. unfold auth. repeat keeps_step. Qed.

Lemma keeps_files_upload_single (e : env) (req : request)
    (next : request -> M reply) :
  (forall r, keeps_files (next r)) ->
  keeps_files (upload_single "image" e req next).
Proof.
  intros Hn. unfold upload_single.
  repeat first [apply Hn | keeps_step].
Qed.

Lemma keeps_files_register (e : env) (req : request) :
  keeps_files (register e req).
Proof. unfold register, getDb. repeat keeps_step. Qed.

Lemma keeps_files_login (e : env) (req : request) :
  keeps_files (login e req).
Proof. unfold login, getDb. repeat keeps_step. Qed.

Lemma keeps_files_get_user (e : env) (req : request) :
  keeps_files (get_user e req).
Proof. unfold get_user, getDb. repeat keeps_step. Qed.

Lemma keeps_files_list_categories (e : env) (req : request) :
  keeps_files (list_categories e req).
Proof. unfold list_categories, getDb. repeat keeps_step. Qed.

Lemma keeps_files_create_category (e : env) (req : request) :
  keeps_files (create_category e req).
Proof. unfold create_category, getDb. repeat keeps_step. Qed.

Lemma keeps_files_update_category (e : env) (req : request) :
  keeps_files (update_category e req).
Proof. unfold update_category, getDb. repeat keeps_step. Qed.

(** Every route but the delete route leaves each file of the uploads
    directory in place. *)
Lemma serve_keeps_files (r : route) (e : env) (req : request) :
  r <> DeleteCategory -> keeps_files (serve r e req).
Proof.
  intros Hr. destruct r; simpl; try contradiction.
  - apply keeps_files_register.
  - apply keeps_files_login.
  - apply keeps_files_auth, keeps_files_get_user.
  - apply keeps_files_auth, keeps_files_list_categories.
  - apply keeps_files_auth. intros r.
    apply keeps_files_upload_single, keeps_files_create_category.
  - apply keeps_files_auth. intros r.
    apply keeps_files_upload_single, keeps_files_update_category.
Qed.

(** ** What the upload middleware hands on *)

Lemma stored_upload_categories (e : env) (req : request) (w : World) :
  categories (stored_upload e req w) = categories w.
Proof. unfold stored_upload. now destruct (part req). Qed.

Lemma stored_upload_healthy (e : env) (req : request) (w : World) :
  healthy w -> healthy (stored_upload e req w).
Proof. unfold stored_upload, healthy. now destruct (part req). Qed.

Lemma stored_upload_files (e : env) (req : request) (w : World) :
  uploads w ⊆ uploads (stored_upload e req w).
Proof.
  forget_libraries. unfold stored_upload.
  destruct (part req); simpl; set_solver.
Qed.

Lemma after_upload_params_id (e : env) (req : request) :
  params_id (after_upload e req) = params_id req.
Proof. unfold after_upload. now destruct (part req). Qed.

Lemma after_upload_body_name (e : env) (req : request) :
  body_name (after_upload e req) = body_name req.
Proof. unfold after_upload. now destruct (part req). Qed.

Lemma after_upload_body_itemCount (e : env) (req : request) :
  body_itemCount (after_upload e req) = body_itemCount req.
Proof. unfold after_upload. now destruct (part req). Qed.

Lemma bind_param_js_of_sql (v : sqlval) : bind_param (js_of_sql v) = v.
Proof. now destruct v. Qed.

(** The fields of the row an update leaves behind. *)
Lemma merged_row_fields (e : env) (req : request) (c : category_row) :
  c_id c = params_id req ->
  c_id (merged_row e req c) = c_id c /\
  c_name (merged_row e req c)
  = (if truthy_field (body_name req) then str (body_name req)
     else c_name c) /\
  c_item_count (merged_row e req c)
  = (if body_itemCount req is JUndefined then c_item_count c
     else bind_param (body_itemCount req)) /\
  c_image (merged_row e req c)
  = (if req_file req is Some f then Some (filename f) else c_image c) /\
  c_created_at (merged_row e req c) = c_created_at c /\
  c_updated_at (merged_row e req c) = CURRENT_TIMESTAMP e.
Proof.
  intros Hid. unfold merged_row, update_row.
  rewrite (proj2 (Z.eqb_eq _ _) Hid). simpl.
  repeat split; try reflexivity.
  destruct (body_itemCount req); try reflexivity.
  apply bind_param_js_of_sql.
Qed.

(** [create_category] is its lookup stretch followed by its insert
    stretch. *)
Lemma create_category_stretches (e : env) (req : request) (w : World) :
  create_category e req w
  = (l ← create_lookup e req;
     if l is Some r then mret r else create_insert e req) w.
Proof.
  unfold create_category, create_lookup, create_insert, try_catch,
    server_error, mbind, M_bind, mret, M_ret.
  destruct (truthy_field (body_name req)); simpl; [|reflexivity].
  destruct (getDb w) as [[[]|x] w1]; simpl; [|reflexivity].
  destruct (db_get_category_by_name _ w1) as [[[c|]|x] w2]; simpl;
    reflexivity.
Qed.

(** ** The guard on a request without the header *)

(** C1: on a request that has no authorization header, [auth] answers
    401 with the message "Token is not valid", whatever the handler
    behind it is, and leaves the world as it was: reading [split] of the
    absent header throws, and the [catch] answers. *)
Theorem auth_without_header (e : env) (req : request)
    (next : request -> M reply) (w : World) :
  auth e (without_authorization req) next w
  = (Ok (Respond 401 (Message "Token is not valid")), w).
Proof. now apply auth_absent_header. Qed.

(** ** Uploads that are turned down *)

(** C3: on the create route, an upload that is not an image or is larger
    than 5 MiB (or reaches 5 MiB exactly) ends the request in an error
    handed to the framework (the filter's error or multer's), the handler
    does not run and the world, with its category rows, is as it was. *)
Theorem refused_upload_inserts_nothing (e : env) (req : request)
    (w : World) (p : jwt_payload) (f : upload_part) :
  authenticated e req p ->
  part req = Some f ->
  refused_upload f ->
  exists x,
    serve PostCategories e req w = (Ok (NextError x), w) /\
    (x = Error "Not an image! Please upload only images." \/
     x = MulterError "LIMIT_FILE_SIZE" \/
     x = MulterError "LIMIT_UNEXPECTED_FILE").
Proof.
  intros Ha Hp Hr.
  destruct (upload_single_refused e (set_req_user p req)
              (create_category e) w f Hp Hr) as (x & Hx & Hkind).
  exists x. split; [|exact Hkind].
  simpl. now apply (auth_pass e req _ w w p).
Qed.

(** ** Partial update *)

(** C4: a successful update of an existing category keeps the stored
    name when the request has none, the stored item count when the
    request has none, the stored image when no file is uploaded, and sets
    [updated_at] to the current timestamp in every case. *)
Theorem update_keeps_unspecified_fields (e : env) (req : request)
    (w : World) (p : jwt_payload) (c : category_row) :
  authenticated e req p ->
  accepted_upload req = true ->
  req_file req = None ->
  healthy w ->
  select_category_by_id (params_id req) (categories w) = Some c ->
  exists c' w',
    serve PutCategory e req w
    = (Ok (Respond 200 (CategoryJson (transform c'))), w') /\
    select_category_by_id (params_id req) (categories w') = Some c' /\
    (truthy_field (body_name req) = false -> c_name c' = c_name c) /\
    (body_itemCount req = JUndefined -> c_item_count c' = c_item_count c) /\
    (part req = None -> c_image c' = c_image c) /\
    c_updated_at c' = CURRENT_TIMESTAMP e /\
    c_id c' = c_id c /\ c_created_at c' = c_created_at c.
Proof.
  intros Ha Hu Hfile Hw Hc.
  set (req' := after_upload e (set_req_user p req)).
  assert (Hid : params_id req' = params_id req)
    by (unfold req'; now rewrite after_upload_params_id).
  destruct (update_category_updated e req' (stored_upload e req w) c)
    as (w' & Hrun & Hsel & _ & _).
  { now apply stored_upload_healthy. }
  { now rewrite stored_upload_categories, Hid. }
  exists (merged_row e req' c), w'.
  rewrite (serve_put_reaches e req w p Ha Hu). rewrite Hid in Hsel.
  destruct (merged_row_fields e req' c) as (Fid & Fname & Fcount & Fimg
                                            & Fcreated & Fupdated).
  { rewrite Hid. now apply select_category_by_id_id in Hc. }
  repeat split; try assumption.
  - intros Hn. rewrite Fname. unfold req'.
    rewrite after_upload_body_name. simpl. now rewrite Hn.
  - intros Hi. rewrite Fcount. unfold req'.
    rewrite after_upload_body_itemCount. simpl. now rewrite Hi.
  - intros Hp. rewrite Fimg. unfold req', after_upload. simpl.
    rewrite Hp. simpl. now rewrite Hfile.
Qed.

(** ** Item counts *)


(** ** Category names *)

(** C6: a create request for a name that a stored category already has
    is answered 400 "Category already exists" by the handler's own
    lookup and changes nothing; the insert statement itself accepts the
    name a second time and appends the row. *)
Theorem duplicate_name_caught_by_lookup (e : env) (req : request)
    (w : World) (c : category_row) :
  healthy w ->
  truthy_field (body_name req) = true ->
  select_category_by_name (str (body_name req)) (categories w) = Some c ->
  create_category e req w
  = (Ok (Respond 400 (Message "Category already exists")), w) /\
  forall item_count image, exists id row,
    db_insert_category e (str (body_name req)) item_count image w
    = (Ok id, set_categories (categories w ++ [row]) id w) /\
    c_name row = str (body_name req).
Proof.
  intros Hw Hn Hc. split.
  - now apply (create_category_duplicate e req w c).
  - intros item_count image. eexists _, _.
    rewrite (db_insert_category_healthy e _ _ _ w Hw).
    split; reflexivity.
Qed.

(** ** Deleting a category *)

(** C8: deleting an existing category answers "Category deleted
    successfully", leaves no row with that id (a later delete of the id
    answers 404 "Category not found", and so does a later update), and
    leaves no file under the row's image name, whether or not the file
    was on disk. *)
Theorem delete_removes_row_and_file (e : env) (req : request) (w : World)
    (p : jwt_payload) (c : category_row) :
  authenticated e req p ->
  healthy w ->
  select_category_by_id (params_id req) (categories w) = Some c ->
  exists w',
    serve DeleteCategory e req w
    = (Ok (Respond 200 (Message "Category deleted successfully")), w') /\
    select_category_by_id (params_id req) (categories w') = None /\
    (truthy_field (c_image c) = true -> str (c_image c) ∉ uploads w') /\
    (forall e' req' p',
       authenticated e' req' p' ->
       params_id req' = params_id req ->
       serve DeleteCategory e' req' w'
       = (Ok (Respond 404 (Message "Category not found")), w')) /\
    (forall e' req',
       params_id req' = params_id req ->
       update_category e' req' w'
       = (Ok (Respond 404 (Message "Category not found")), w')).
Proof.
  intros Ha Hw Hc. eexists. split; [|split; [|split; [|split]]].
  - rewrite (serve_delete_reaches e req w p Ha).
    now apply (delete_category_deleted e _ w c).
  - cbn [categories set_categories set_req_user params_id].
    apply select_category_by_id_deleted.
  - intros Hi. cbn [uploads set_categories set_uploads].
    now apply without_image_gone.
  - intros e' req' p' Ha' Hid.
    rewrite (serve_delete_reaches e' req' _ p' Ha').
    apply delete_category_missing; [exact Hw|].
    cbn [categories set_categories set_req_user params_id]. rewrite Hid.
    apply select_category_by_id_deleted.
  - intros e' req' Hid.
    apply update_category_missing; [exact Hw|].
    cbn [categories set_categories set_req_user params_id]. rewrite Hid.
    apply select_category_by_id_deleted.
Qed.

(** ** Replacing an image *)

(** C9: an update that uploads a new image for a category that has one
    stores the new file's name in the row and removes no file: the old
    file, if it was on disk, still is.  No route but the delete route
    removes a file. *)
Theorem update_image_keeps_old_file (e : env) (req : request) (w : World)
    (p : jwt_payload) (c : category_row) (old : string)
    (f : upload_part) :
  authenticated e req p ->
  healthy w ->
  select_category_by_id (params_id req) (categories w) = Some c ->
  c_image c = Some old ->
  part req = Some f ->
  accepted_upload req = true ->
  exists c' w',
    serve PutCategory e req w
    = (Ok (Respond 200 (CategoryJson (transform c'))), w') /\
    select_category_by_id (params_id req) (categories w') = Some c' /\
    c_image c' = Some (storage_filename e f) /\
    (old ∈ uploads w -> old ∈ uploads w') /\
    (forall r e0 req0 w0 name,
       r <> DeleteCategory ->
       name ∈ uploads w0 -> name ∈ uploads (serve r e0 req0 w0).2).
Proof.
  intros Ha Hw Hc Hold Hp Hu.
  set (req' := after_upload e (set_req_user p req)).
  assert (Hid : params_id req' = params_id req)
    by (unfold req'; now rewrite after_upload_params_id).
  destruct (update_category_updated e req' (stored_upload e req w) c)
    as (w' & Hrun & Hsel & Hfiles & _).
  { now apply stored_upload_healthy. }
  { now rewrite stored_upload_categories, Hid. }
  exists (merged_row e req' c), w'.
  rewrite (serve_put_reaches e req w p Ha Hu). rewrite Hid in Hsel.
  destruct (merged_row_fields e req' c) as (_ & _ & _ & Fimg & _).
  { rewrite Hid. now apply select_category_by_id_id in Hc. }
  split; [exact Hrun|]. split; [exact Hsel|]. split; [|split].
  - rewrite Fimg. unfold req', after_upload. simpl. now rewrite Hp.
  - intros Hin. rewrite Hfiles.
    now apply (stored_upload_files e req w).
  - intros r e0 req0 w0 name Hr Hin.
    now apply (serve_keeps_files r e0 req0 Hr w0).
Qed.

(** ** Delete when the row deletion fails *)

(** C10: [delete_category] removes the image file before it deletes the
    row.  When the lookup succeeds and the row deletion then fails, the
    request is answered 500, the row is still in the table with its
    image name, and the file it names is gone. *)
Theorem delete_not_atomic (e : env) (req : request) (w : World)
    (p : jwt_payload) (c : category_row) :
  authenticated e req p ->
  faults w = [false; false; true] ->
  select_category_by_id (params_id req) (categories w) = Some c ->
  truthy_field (c_image c) = true ->
  str (c_image c) ∈ uploads w ->
  exists w',
    serve DeleteCategory e req w
    = (Ok (Respond 500 (Message "Server error")), w') /\
    select_category_by_id (params_id req) (categories w') = Some c /\
    str (c_image c) ∉ uploads w'.
Proof.
  intros Ha Hf Hc Hi Hin.
  destruct (delete_category_row_failure e (set_req_user p req) w c Hf Hc)
    as (w' & Hrun & Hcats & Hfiles).
  exists w'. rewrite (serve_delete_reaches e req w p Ha).
  split; [exact Hrun|]. split.
  - now rewrite Hcats.
  - rewrite Hfiles. now apply without_image_gone.
Qed.

(** ** More on the guard *)

Lemma split_no_space (s : string) :
  no_space s = true -> split " " s = [s].
Proof.
  induction s as [|c s IH]; simpl; [reflexivity|].
  intros H. apply andb_prop in H as [Hc Hs].
  apply negb_true_iff in Hc. rewrite Hc, (IH Hs). reflexivity.
Qed.

Lemma split_first_word (a b : string) :
  no_space a = true ->
  split " " (a +:+ String " " b) = a :: split " " b.
Proof.
  induction a as [|c a IH]; simpl; [reflexivity|].
  intros H. apply andb_prop in H as [Hc Ha].
  apply negb_true_iff in Hc. rewrite Hc, (IH Ha). reflexivity.
Qed.

Lemma truthy_field_Some (s : string) :
  s <> "" -> truthy_field (Some s) = true.
Proof. intros H. simpl. now destruct (String.eqb_spec s ""). Qed.

Lemma serve_protected (r : route) (e : env) (req : request) :
  protected r = true ->
  exists next, serve r e req = auth e req next.
Proof. destruct r; simpl; try discriminate; eauto. Qed.

(** X1: on every protected route, a request whose authorization header
    has no second space-separated piece, or an empty one, is answered
    401 "No authentication token, authorization denied", and the world
    is left as it was. *)
Theorem protected_route_no_token (r : route) (e : env) (req : request)
    (w : World) (header : string) :
  protected r = true ->
  authorization req = Some header ->
  truthy_field (split " " header !! 1%nat) = false ->
  serve r e req w
  = (Ok (Respond 401
           (Message "No authentication token, authorization denied")), w).
Proof.
  intros Hr Hh Ht. destruct (serve_protected r e req Hr) as [next ->].
  now apply (auth_no_token e req next w header).
Qed.

(** X2: on every protected route, a request whose token does not verify
    is answered 401 "Token is not valid" whatever the library threw, and
    the world is left as it was. *)
Theorem protected_route_invalid_token (r : route) (e : env) (req : request)
    (w : World) (header token : string) (x : exn) :
  protected r = true ->
  authorization req = Some header ->
  split " " header !! 1%nat = Some token ->
  token <> "" ->
  jwt_verify (Date_now e) token (JWT_SECRET e) = Throw x ->
  serve r e req w = (Ok (Respond 401 (Message "Token is not valid")), w).
Proof.
  intros Hr Hh Ht Hne Hv. destruct (serve_protected r e req Hr) as [next ->].
  now apply (auth_invalid_token e req next w header token x).
Qed.

(** X3: the guard does not look at the first word of the header: a token
    that verifies is accepted after any word without a space, and the
    handler then runs on the request with the decoded payload attached. *)
Theorem guard_ignores_scheme (e : env) (req : request)
    (next : request -> M reply) (w : World) (scheme token : string)
    (p : jwt_payload) :
  authorization req = Some (scheme +:+ String " " token) ->
  no_space scheme = true ->
  no_space token = true ->
  token <> "" ->
  jwt_verify (Date_now e) token (JWT_SECRET e) = Ok p ->
  replies (next (set_req_user p req)) ->
  auth e req next w = next (set_req_user p req) w.
Proof.
  intros Hh Hs Ht Hne Hv Hn. apply auth_reaches; [|apply Hn].
  exists (scheme +:+ String " " token), token.
  repeat split; try assumption.
  now rewrite (split_first_word scheme token Hs), (split_no_space token Ht).
Qed.

(** ** More on registration and login *)

Lemma db_insert_user_healthy (e : env) (username email password : string)
    (w : World) :
  healthy w ->
  select_user_by_username username (users w) = None ->
  select_user_by_email email (users w) = None ->
  db_insert_user e username email password w
  = (Ok (next_rowid (users_seq w) (map u_id (users w))),
     set_users
       (users w ++
        [{| u_id := next_rowid (users_seq w) (map u_id (users w));
            u_username := username; u_email := email;
            u_password := password;
            u_created_at := CURRENT_TIMESTAMP e |}])
       (next_rowid (users_seq w) (map u_id (users w))) w).
Proof.
  intros H Hu He. unfold db_insert_user.
  rewrite (bind_run _ _ _ _ _ (store_call_healthy w H)).
  unfold mbind, M_bind, get_world. now rewrite Hu, He.
Qed.

Lemma select_user_by_email_appended (email : string) (us : list user_row)
    (row : user_row) :
  select_user_by_email email us = None ->
  u_email row = email ->
  select_user_by_email email (us ++ [row]) = Some row.
Proof.
  unfold select_user_by_email. intros Hnone Hrow.
  induction us as [|u us IH]; simpl in *.
  - now rewrite Hrow, String.eqb_refl.
  - destruct (String.eqb (u_email u) email); [discriminate|]. now apply IH.
Qed.

Lemma register_registered (e : env) (req : request) (w : World) :
  truthy_field (body_username req) = true ->
  truthy_field (body_email req) = true ->
  truthy_field (text (body_password req)) = true ->
  healthy w ->
  select_user_by_email (str (body_email req)) (users w) = None ->
  select_user_by_username (str (body_username req)) (users w) = None ->
  register e req w
  = (Ok (Respond 201
           (Registered "Registration successful! Please log in.")),
     set_users (users w ++ [registered_row e req w])
       (u_id (registered_row e req w)) w).
Proof.
  intros Hu He Hp Hw Hfe Hfu. unfold register.
  rewrite Hu, He, (text_truthy _ Hp). simpl.
  apply try_catch_run.
  rewrite (bind_run _ _ _ _ _ (getDb_healthy w Hw)).
  rewrite (bind_run _ _ _ _ _ (db_get_user_by_email_healthy _ w Hw)).
  rewrite Hfe.
  rewrite (bind_run _ _ _ _ _ (db_get_user_by_username_healthy _ w Hw)).
  rewrite Hfu.
  rewrite (bind_run _ _ _ _ _ (bcrypt_hash_text _ _ w Hp)).
  now rewrite (bind_run _ _ _ _ _
                 (db_insert_user_healthy e _ _ _ w Hw Hfu Hfe)).
Qed.

Lemma login_known_user (e : env) (req : request) (w : World)
    (u : user_row) :
  truthy_field (body_email req) = true ->
  truthy_field (text (body_password req)) = true ->
  healthy w ->
  select_user_by_email (str (body_email req)) (users w) = Some u ->
  bcrypt_compare (str (text (body_password req))) (u_password u) = true ->
  login e req w
  = (Ok match jwt_sign (Date_now e)
                {| jwt_id := u_id u; jwt_username := u_username u;
                   jwt_email := str (body_email req) |}
                (JWT_SECRET e) "1h" with
        | Ok token =>
            Respond 200
              (LoginOk token
                 {| pu_id := u_id u; pu_username := u_username u;
                    pu_email := u_email u |})
        | Throw _ => Respond 500 (Message "Server error")
        end, w).
Proof.
  intros He Hp Hw Hsel Hc. unfold login.
  rewrite He, (text_truthy _ Hp). simpl.
  unfold try_catch.
  rewrite (bind_run _ _ _ _ _ (getDb_healthy w Hw)).
  rewrite (bind_run _ _ _ _ _ (db_get_user_by_email_healthy _ w Hw)).
  rewrite Hsel.
  rewrite (bind_run _ _ _ _ _ (bcrypt_compare_text _ _ w Hp)).
  rewrite Hc. simpl.
  unfold mbind, M_bind, lift_outcome.
  now destruct (jwt_sign _ _ _ _).
Qed.

(** X4: [register], [login] and [create_category] answer 400 when a
    required field is missing or empty, or the password is any other
    falsy value ("Please enter all fields", "Category name is required")
    before the store is reached: the world is left as it was, also when
    the store would fail. *)
Theorem missing_field_rejected_before_store (e : env) (req : request)
    (w : World) :
  (truthy_field (body_username req) = false \/
   truthy_field (body_email req) = false \/
   truthy (body_password req) = false ->
   register e req w
   = (Ok (Respond 400 (Message "Please enter all fields")), w)) /\
  (truthy_field (body_email req) = false \/
   truthy (body_password req) = false ->
   login e req w
   = (Ok (Respond 400 (Message "Please enter all fields")), w)) /\
  (truthy_field (body_name req) = false ->
   create_category e req w
   = (Ok (Respond 400 (Message "Category name is required")), w)).
Proof.
  split; [|split].
  - intros H. unfold register.
    destruct H as [-> | [-> | ->]]; simpl;
      repeat rewrite orb_true_r; reflexivity.
  - intros H. unfold login.
    destruct H as [-> | ->]; simpl; repeat rewrite orb_true_r; reflexivity.
  - intros Hn. unfold create_category. apply try_catch_run.
    now rewrite Hn.
Qed.


(** X6: registering and then logging in with the same email and password
    succeeds whenever the hash of the password verifies against it and
    the token can be signed: the reply carries the token and the id,
    username and email of the row just registered. *)
Theorem register_then_login (e e' : env) (req : request) (w : World)
    (token : string) :
  truthy_field (body_username req) = true ->
  truthy_field (body_email req) = true ->
  truthy_field (text (body_password req)) = true ->
  healthy w ->
  select_user_by_email (str (body_email req)) (users w) = None ->
  select_user_by_username (str (body_username req)) (users w) = None ->
  bcrypt_compare (str (text (body_password req)))
    (bcrypt_hash (str (text (body_password req))) (bcrypt_genSalt e 10))
  = true ->
  jwt_sign (Date_now e')
    {| jwt_id := u_id (registered_row e req w);
       jwt_username := str (body_username req);
       jwt_email := str (body_email req) |}
    (JWT_SECRET e') "1h" = Ok token ->
  (login e' req (register e req w).2).1
  = Ok (Respond 200
          (LoginOk token
             {| pu_id := u_id (registered_row e req w);
                pu_username := str (body_username req);
                pu_email := str (body_email req) |})).
Proof.
  intros Hu He Hp Hw Hfe Hfu Hc Hs.
  rewrite (register_registered e req w Hu He Hp Hw Hfe Hfu). simpl.
  rewrite (login_known_user e' req _ (registered_row e req w) He Hp).
  - unfold registered_row in *. simpl in *. now rewrite Hs.
  - exact Hw.
  - simpl. now apply select_user_by_email_appended.
  - exact Hc.
Qed.

(** X7: a login with the email of a stored user and a password that
    verifies is answered 200 with the signed token and the user's id,
    username and email, or 500 "Server error" when signing throws (as
    it does without a secret); the world is left as it was. *)
Theorem login_reply_for_known_user (e : env) (req : request) (w : World)
    (u : user_row) :
  truthy_field (body_email req) = true ->
  truthy_field (text (body_password req)) = true ->
  healthy w ->
  select_user_by_email (str (body_email req)) (users w) = Some u ->
  bcrypt_compare (str (text (body_password req))) (u_password u) = true ->
  (forall token,
     jwt_sign (Date_now e)
       {| jwt_id := u_id u; jwt_username := u_username u;
          jwt_email := str (body_email req) |}
       (JWT_SECRET e) "1h" = Ok token ->
     login e req w
     = (Ok (Respond 200
              (LoginOk token
                 {| pu_id := u_id u; pu_username := u_username u;
                    pu_email := u_email u |})), w)) /\
  (forall x,
     jwt_sign (Date_now e)
       {| jwt_id := u_id u; jwt_username := u_username u;
          jwt_email := str (body_email req) |}
       (JWT_SECRET e) "1h" = Throw x ->
     login e req w = (Ok (Respond 500 (Message "Server error")), w)).
Proof.
  intros He Hp Hw Hsel Hc.
  split; intros ? Hs;
    rewrite (login_known_user e req w u He Hp Hw Hsel Hc); now rewrite Hs.
Qed.

(** ** The current user, and tokens from login *)

Lemma db_get_user_by_id_healthy (id : Z) (w : World) :
  healthy w ->
  db_get_user_by_id id w = (Ok (select_user_by_id id (users w)), w).
Proof.
  intros H. unfold db_get_user_by_id.
  now rewrite (bind_run _ _ _ _ _ (store_call_healthy w H)).
Qed.

Lemma get_user_run (e : env) (req : request) (w : World)
    (p : jwt_payload) :
  healthy w ->
  req_user req = Some p ->
  get_user e req w
  = (Ok match select_user_by_id (jwt_id p) (users w) with
        | Some u =>
            Respond 200
              (UserJson {| pu_id := u_id u; pu_username := u_username u;
                           pu_email := u_email u |})
        | None => Respond 404 (Message "User not found")
        end, w).
Proof.
  intros Hw Hp. unfold get_user. apply try_catch_run.
  rewrite (bind_run _ _ _ _ _ (getDb_healthy w Hw)). rewrite Hp.
  unfold mbind at 1, M_bind at 1, mret at 1, M_ret at 1.
  rewrite (bind_run _ _ _ _ _ (db_get_user_by_id_healthy _ w Hw)).
  now destruct (select_user_by_id _ _).
Qed.

Lemma get_user_total (e : env) (req : request) (w : World) :
  exists r w', get_user e req w = (Ok r, w').
Proof. apply try_catch_total, server_error_run. Qed.

Lemma select_user_by_email_In (email : string) (us : list user_row)
    (u : user_row) :
  select_user_by_email email us = Some u -> In u us /\ u_email u = email.
Proof.
  unfold select_user_by_email. intros H. apply find_some in H as [Hin He].
  split; [exact Hin | now apply String.eqb_eq].
Qed.

Lemma select_user_by_id_unique (us : list user_row) (u : user_row) :
  NoDup (map u_id us) -> In u us ->
  select_user_by_id (u_id u) us = Some u.
Proof.
  unfold select_user_by_id.
  induction us as [|v us IH]; simpl; [tauto|].
  intros Hnd [-> | Hin].
  - now rewrite Z.eqb_refl.
  - apply NoDup_cons in Hnd as [Hv Hnd].
    destruct (Z.eqb_spec (u_id v) (u_id u)) as [E|_]; [|now apply IH].
    exfalso. apply Hv. rewrite E. apply list_elem_of_In.
    now apply in_map.
Qed.

Lemma serve_get_user_run (e : env) (req : request) (w : World)
    (p : jwt_payload) :
  authenticated e req p ->
  healthy w ->
  serve GetUser e req w
  = (Ok match select_user_by_id (jwt_id p) (users w) with
        | Some u =>
            Respond 200
              (UserJson {| pu_id := u_id u; pu_username := u_username u;
                           pu_email := u_email u |})
        | None => Respond 404 (Message "User not found")
        end, w).
Proof.
  intros Ha Hw. simpl.
  rewrite (auth_reaches e req _ w p Ha); [|apply get_user_total].
  now apply get_user_run.
Qed.

Lemma header_authenticated (e : env) (req : request)
    (scheme token : string) (p : jwt_payload) :
  authorization req = Some (scheme +:+ String " " token) ->
  no_space scheme = true ->
  no_space token = true ->
  token <> "" ->
  jwt_verify (Date_now e) token (JWT_SECRET e) = Ok p ->
  authenticated e req p.
Proof.
  intros Hh Hs Ht Hne Hv.
  exists (scheme +:+ String " " token), token.
  repeat split; try assumption.
  now rewrite (split_first_word scheme token Hs), (split_no_space token Ht).
Qed.

(** X8: behind the guard, the current-user route looks the token's id up
    in the store: a stored user is answered with its id, username and
    email, and an id that no longer resolves is answered 404 "User not
    found". *)
Theorem current_user_by_token_id (e : env) (req : request) (w : World)
    (p : jwt_payload) :
  authenticated e req p ->
  healthy w ->
  serve GetUser e req w
  = (Ok match select_user_by_id (jwt_id p) (users w) with
        | Some u =>
            Respond 200
              (UserJson {| pu_id := u_id u; pu_username := u_username u;
                           pu_email := u_email u |})
        | None => Respond 404 (Message "User not found")
        end, w).
Proof. apply serve_get_user_run. Qed.

(** X9: a token that [login] issues opens the guard: when the library
    verifies what it signed, a request that sends the token after
    "Bearer " reaches the current-user route and is answered with the
    same id, username and email that the login reply carried. *)
Theorem login_token_opens_guard (e e' : env) (req req' : request)
    (w : World) (u : user_row) (token : string) :
  truthy_field (body_email req) = true ->
  truthy_field (text (body_password req)) = true ->
  healthy w ->
  NoDup (map u_id (users w)) ->
  select_user_by_email (str (body_email req)) (users w) = Some u ->
  bcrypt_compare (str (text (body_password req))) (u_password u) = true ->
  jwt_sign (Date_now e)
    {| jwt_id := u_id u; jwt_username := u_username u;
       jwt_email := str (body_email req) |}
    (JWT_SECRET e) "1h" = Ok token ->
  no_space token = true ->
  token <> "" ->
  jwt_verify (Date_now e') token (JWT_SECRET e')
  = Ok {| jwt_id := u_id u; jwt_username := u_username u;
          jwt_email := str (body_email req) |} ->
  authorization req' = Some ("Bearer " +:+ token) ->
  exists pu,
    login e req w = (Ok (Respond 200 (LoginOk token pu)), w) /\
    serve GetUser e' req' w = (Ok (Respond 200 (UserJson pu)), w).
Proof.
  intros He Hp Hw Hnd Hsel Hc Hs Hns Hne Hv Hh.
  eexists. split.
  - rewrite (login_known_user e req w u He Hp Hw Hsel Hc). now rewrite Hs.
  - apply select_user_by_email_In in Hsel as [Hin _].
    rewrite (serve_get_user_run e' req' w _
               (header_authenticated e' req' "Bearer" token _ Hh eq_refl
                  Hns Hne Hv) Hw).
    simpl. now rewrite (select_user_by_id_unique _ _ Hnd Hin).
Qed.

(** ** Two registrations at once *)

(** [register] is its lookup stretch followed by its insert stretch. *)
Lemma register_stretches (e : env) (req : request) (w : World) :
  register e req w
  = (l ← register_lookup e req;
     if l is Some r then mret r else register_insert e req) w.
Proof.
  unfold register, register_lookup, register_insert.
  destruct (negb (truthy_field (body_username req))
            || negb (truthy_field (body_email req))
            || negb (truthy (body_password req))); [reflexivity|].
  unfold try_catch, server_error, mbind, M_bind, mret, M_ret.
  destruct (getDb w) as [[[]|x] w1]; simpl; [|reflexivity].
  destruct (db_get_user_by_email _ w1) as [[[u|]|x] w2]; simpl;
    try reflexivity.
  destruct (db_get_user_by_username _ w2) as [[[u|]|x] w3]; simpl;
    reflexivity.
Qed.





(** ** Relations that every step of a handler respects *)

Section Respect.

Variable R : World -> World -> Prop.
Hypothesis R_refl : forall w, R w w.
Hypothesis R_trans : forall a b c, R a b -> R b c -> R a c.
Hypothesis R_faults : forall w plan, R w (with_faults plan w).

Lemma respects_ret {A} (a : A) : respects R (mret a : M A).
Proof using Type*. intros w. apply R_refl. Qed.

Lemma respects_throw {A} (x : exn) : respects R (throw x : M A).
Proof using Type*. intros w. apply R_refl. Qed.

Lemma respects_lift {A} (o : outcome A) : respects R (lift_outcome o).
Proof using Type*. intros w. apply R_refl. Qed.

Lemma respects_bind {A B} (m : M A) (f : A -> M B) :
  respects R m -> (forall a, respects R (f a)) -> respects R (m ≫= f).
Proof using Type*.
  intros Hm Hf w. unfold mbind, M_bind.
  specialize (Hm w). destruct (m w) as [[a|x] w1]; simpl in *.
  - exact (R_trans _ _ _ Hm (Hf a w1)).
  - exact Hm.
Qed.

Lemma respects_try_catch {A} (m : M A) (h : exn -> M A) :
  respects R m -> (forall x, respects R (h x)) ->
  respects R (try_catch m h).
Proof using Type*.
  intros Hm Hh w. unfold try_catch.
  specialize (Hm w). destruct (m w) as [[a|x] w1]; simpl in *.
  - exact Hm.
  - exact (R_trans _ _ _ Hm (Hh x w1)).
Qed.

Lemma respects_store_call : respects R store_call.
Proof using Type*.
  intros w. unfold store_call.
  destruct (faults w) as [|[] rest]; simpl; auto.
Qed.

Lemma respects_get_world : respects R get_world.
Proof using Type*. intros w. apply R_refl. Qed.

Lemma respects_fs_existsSync (name : string) :
  respects R (fs_existsSync name).
Proof using Type*. intros w. apply R_refl. Qed.

Lemma respects_server_error (x : exn) : respects R (server_error x).
Proof using Type*. apply respects_ret. Qed.

Lemma respects_statement {A} (f : World -> M A) :
  (forall w, R w (f w w).2) ->
  respects R (_ ← store_call; w ← get_world; f w).
Proof using Type*.
  intros Hf w. unfold mbind, M_bind, get_world.
  pose proof (respects_store_call w) as Hs.
  destruct (store_call w) as [[[]|x] w1]; simpl in *; [|exact Hs].
  exact (R_trans _ _ _ Hs (Hf w1)).
Qed.

Lemma respects_db_get_user_by_email (email : string) :
  respects R (db_get_user_by_email email).
Proof using Type*. apply respects_statement. intros w. apply R_refl. Qed.

Lemma respects_db_get_user_by_username (username : string) :
  respects R (db_get_user_by_username username).
Proof using Type*. apply respects_statement. intros w. apply R_refl. Qed.

Lemma respects_db_get_user_by_id (id : Z) :
  respects R (db_get_user_by_id id).
Proof using Type*. apply respects_statement. intros w. apply R_refl. Qed.

Lemma respects_db_get_category_by_name (name : string) :
  respects R (db_get_category_by_name name).
Proof using Type*. apply respects_statement. intros w. apply R_refl. Qed.

Lemma respects_db_get_category_by_id (id : Z) :
  respects R (db_get_category_by_id id).
Proof using Type*. apply respects_statement. intros w. apply R_refl. Qed.

Lemma respects_db_all_categories : respects R db_all_categories.
Proof using Type*. apply respects_statement. intros w. apply R_refl. Qed.

Lemma respects_db_count_users : respects R db_count_users.
Proof using Type*. apply respects_statement. intros w. apply R_refl. Qed.

Lemma respects_db_count_categories : respects R db_count_categories.
Proof using Type*. apply respects_statement. intros w. apply R_refl. Qed.

Lemma respects_bcrypt_hash_checked (s : jsval) (salt : string) :
  respects R (bcrypt_hash_checked s salt).
Proof using Type*. intros w. destruct s; apply R_refl. Qed.

Lemma respects_bcrypt_compare_checked (s : jsval) (h : string) :
  respects R (bcrypt_compare_checked s h).
Proof using Type*. intros w. destruct s; apply R_refl. Qed.

Create HintDb respects.

#[local] Hint Resolve respects_bcrypt_hash_checked
  respects_bcrypt_compare_checked : respects.

#[local] Hint Resolve respects_ret respects_throw respects_lift
  respects_store_call respects_get_world respects_fs_existsSync
  respects_server_error respects_db_get_user_by_email
  respects_db_get_user_by_username respects_db_get_user_by_id
  respects_db_get_category_by_name respects_db_get_category_by_id
  respects_db_all_categories respects_db_count_users
  respects_db_count_categories : respects.

Ltac respects_step :=
  match goal with
  | |- respects _ (try_catch _ _) => apply respects_try_catch
  | |- respects _ (mbind _ _) => apply respects_bind
  | |- respects _ (if ?b then _ else _) => destruct b
  | |- respects _ (match ?x with _ => _ end) => destruct x
  | |- forall _, _ => intro
  | |- respects _ _ => solve [eauto with respects]
  end.

Lemma respects_auth (e : env) (req : request)
    (next : request -> M reply) :
  (forall r, respects R (next r)) -> respects R (auth e req next).
Proof using Type*. intros Hn. unfold auth. repeat respects_step. Qed.

Lemma respects_upload_single (e : env) (req : request)
    (next : request -> M reply) :
  (forall name, respects R (store_file name)) ->
  (forall r, respects R (next r)) ->
  respects R (upload_single "image" e req next).
Proof using Type*.
  intros Hs Hn. unfold upload_single. repeat respects_step.
Qed.

Lemma respects_register (e : env) (req : request) :
  (forall username email password,
     respects R (db_insert_user e username email password)) ->
  respects R (register e req).
Proof using Type*.
  intros Hi. unfold register, getDb. repeat respects_step.
Qed.

Lemma respects_login (e : env) (req : request) : respects R (login e req).
Proof using Type*. unfold login, getDb. repeat respects_step. Qed.

Lemma respects_get_user (e : env) (req : request) :
  respects R (get_user e req).
Proof using Type*. unfold get_user, getDb. repeat respects_step. Qed.

Lemma respects_list_categories (e : env) (req : request) :
  respects R (list_categories e req).
Proof using Type*. unfold list_categories, getDb. repeat respects_step. Qed.

Lemma respects_create_category (e : env) (req : request) :
  (forall name item_count image,
     respects R (db_insert_category e name item_count image)) ->
  respects R (create_category e req).
Proof using Type*.
  intros Hi. unfold create_category, getDb. repeat respects_step.
Qed.

Lemma respects_update_category (e : env) (req : request) :
  (forall name item_count image id,
     respects R (db_update_category e name item_count image id)) ->
  respects R (update_category e req).
Proof using Type*.
  intros Hi. unfold update_category, getDb. repeat respects_step.
Qed.

Lemma respects_delete_category (e : env) (req : request) :
  (forall name, respects R (fs_unlinkSync name)) ->
  (forall id, respects R (db_delete_category id)) ->
  respects R (delete_category e req).
Proof using Type*.
  intros Hu Hd. unfold delete_category, getDb. repeat respects_step.
Qed.

Lemma respects_insert_each (e : env) (l : list (string * Z * string)) :
  (forall name item_count image,
     respects R (db_insert_category e name item_count image)) ->
  respects R (insert_each e l).
Proof using Type*.
  intros Hi. induction l as [|[[name itemCount] image] l IH]; simpl.
  - apply respects_ret.
  - apply respects_bind; [apply Hi | intros _; exact IH].
Qed.

(** A relation that every write of the store and of the uploads
    directory respects is respected by every route. *)
Lemma respects_serve (r : route) (e : env) (req : request) :
  (forall e username email password,
     respects R (db_insert_user e username email password)) ->
  (forall e name item_count image,
     respects R (db_insert_category e name item_count image)) ->
  (forall e name item_count image id,
     respects R (db_update_category e name item_count image id)) ->
  (forall id, respects R (db_delete_category id)) ->
  (forall name, respects R (store_file name)) ->
  (forall name, respects R (fs_unlinkSync name)) ->
  respects R (serve r e req).
Proof using Type*.
  intros Hiu Hic Huc Hdc Hsf Hul. destruct r; simpl.
  - now apply respects_register.
  - apply respects_login.
  - apply respects_auth. intros r. apply respects_get_user.
  - apply respects_auth. intros r. apply respects_list_categories.
  - apply respects_auth. intros r. apply respects_upload_single; [easy|].
    intros r'. now apply respects_create_category.
  - apply respects_auth. intros r. apply respects_upload_single; [easy|].
    intros r'. now apply respects_update_category.
  - apply respects_auth. intros r. now apply respects_delete_category.
Qed.

End Respect.

(** ** Frames: what each write leaves alone *)

Lemma keeps_refl {X} (proj : World -> X) (w : World) : keeps proj w w.
Proof. reflexivity. Qed.

Lemma keeps_trans {X} (proj : World -> X) (a b c : World) :
  keeps proj a b -> keeps proj b c -> keeps proj a c.
Proof. unfold keeps. congruence. Qed.

Ltac frame_statement :=
  apply respects_statement;
  [ apply keeps_refl | apply keeps_trans | intros ? ?; reflexivity
  | intros ?;
    repeat match goal with
           | |- context [match ?x with _ => _ end] => destruct x
           end; reflexivity ].

Lemma db_insert_user_keeps_categories (e : env)
    (username email password : string) :
  respects (keeps category_data)
    (db_insert_user e username email password).
Proof. unfold db_insert_user. frame_statement. Qed.

Lemma db_insert_user_keeps_uploads (e : env)
    (username email password : string) :
  respects (keeps uploads) (db_insert_user e username email password).
Proof. unfold db_insert_user. frame_statement. Qed.

Lemma db_insert_category_keeps_users (e : env) (name : string)
    (item_count : jsval) (image : option string) :
  respects (keeps user_data) (db_insert_category e name item_count image).
Proof. unfold db_insert_category. frame_statement. Qed.

Lemma db_update_category_keeps_users (e : env) (name : string)
    (item_count : jsval) (image : option string) (id : Z) :
  respects (keeps user_data)
    (db_update_category e name item_count image id).
Proof. unfold db_update_category. frame_statement. Qed.

Lemma db_delete_category_keeps_users (id : Z) :
  respects (keeps user_data) (db_delete_category id).
Proof. unfold db_delete_category. frame_statement. Qed.

Lemma store_file_keeps_users (name : string) :
  respects (keeps user_data) (store_file name).
Proof. intros w. reflexivity. Qed.

Lemma store_file_keeps_categories (name : string) :
  respects (keeps category_data) (store_file name).
Proof. intros w. reflexivity. Qed.

Lemma fs_unlinkSync_keeps_users (name : string) :
  respects (keeps user_data) (fs_unlinkSync name).
Proof.
  intros w. unfold fs_unlinkSync. now destruct (bool_decide _).
Qed.

Lemma fs_unlinkSync_keeps_categories (name : string) :
  respects (keeps category_data) (fs_unlinkSync name).
Proof.
  intros w. unfold fs_unlinkSync. now destruct (bool_decide _).
Qed.

(** Every route but POST register leaves the users table alone. *)
Lemma serve_keeps_users (r : route) (e : env) (req : request) :
  r <> PostRegister -> respects (keeps user_data) (serve r e req).
Proof.
  intros Hr.
  assert (Hf : forall (w : World) (plan : list bool),
             keeps user_data w (with_faults plan w)) by reflexivity.
  pose proof (@keeps_refl _ user_data) as Hrefl.
  pose proof (@keeps_trans _ user_data) as Htrans.
  destruct r; simpl; try contradiction.
  - now apply respects_login.
  - apply respects_auth; try assumption. intros r.
    now apply respects_get_user.
  - apply respects_auth; try assumption. intros r.
    now apply respects_list_categories.
  - apply respects_auth; try assumption. intros r.
    apply respects_upload_single; try assumption.
    + apply store_file_keeps_users.
    + intros r'. apply respects_create_category; try assumption.
      apply db_insert_category_keeps_users.
  - apply respects_auth; try assumption. intros r.
    apply respects_upload_single; try assumption.
    + apply store_file_keeps_users.
    + intros r'. apply respects_update_category; try assumption.
      apply db_update_category_keeps_users.
  - apply respects_auth; try assumption. intros r.
    apply respects_delete_category; try assumption.
    + apply fs_unlinkSync_keeps_users.
    + apply db_delete_category_keeps_users.
Qed.

Lemma same_data_refl (w : World) : same_data w w.
Proof. now repeat split. Qed.

Lemma same_data_trans (a b c : World) :
  same_data a b -> same_data b c -> same_data a c.
Proof. unfold same_data. intuition congruence. Qed.

Lemma same_data_faults (w : World) (plan : list bool) :
  same_data w (with_faults plan w).
Proof. now repeat split. Qed.

(** X11: the routes that only read (login, current user, category list)
    leave the tables, their counters and the uploads directory exactly
    as they were, whatever the request and whatever the store does. *)
Theorem read_only_routes_change_nothing (r : route) (e : env)
    (req : request) (w : World) :
  read_only r = true -> same_data w (serve r e req w).2.
Proof.
  intros Hr. revert w. change (respects same_data (serve r e req)).
  destruct r; simpl; try discriminate.
  - apply respects_login; [apply same_data_refl | apply same_data_trans
                          | apply same_data_faults].
  - apply respects_auth; [apply same_data_refl | apply same_data_trans
                         | apply same_data_faults |].
    intros r. apply respects_get_user;
      [apply same_data_refl | apply same_data_trans | apply same_data_faults].
  - apply respects_auth; [apply same_data_refl | apply same_data_trans
                         | apply same_data_faults |].
    intros r. apply respects_list_categories;
      [apply same_data_refl | apply same_data_trans | apply same_data_faults].
Qed.

(** X12: each table is written by its own routes only: no route but
    POST register changes the users table, and POST register changes
    neither the categories table nor the uploads directory. *)
Theorem tables_written_by_own_routes (r : route) (e : env) (req : request)
    (w : World) :
  (r <> PostRegister -> users (serve r e req w).2 = users w) /\
  (r = PostRegister ->
   categories (serve r e req w).2 = categories w /\
   uploads (serve r e req w).2 = uploads w).
Proof.
  split.
  - intros Hr. pose proof (serve_keeps_users r e req Hr w) as H.
    unfold keeps, user_data in H. congruence.
  - intros ->. simpl. split.
    + assert (H : respects (keeps category_data) (register e req)).
      { apply respects_register;
          [apply keeps_refl | apply keeps_trans | now intros ? ?|].
        apply db_insert_user_keeps_categories. }
      specialize (H w). unfold keeps, category_data in H. congruence.
    + assert (H : respects (keeps uploads) (register e req)).
      { apply respects_register;
          [apply keeps_refl | apply keeps_trans | now intros ? ?|].
        apply db_insert_user_keeps_uploads. }
      exact (H w).
Qed.

(** ** Invariants of the tables *)

Lemma select_user_by_email_fresh (email : string) (us : list user_row) :
  select_user_by_email email us = None -> ~ In email (map u_email us).
Proof.
  unfold select_user_by_email. intros Hnone Hin.
  apply List.in_map_iff in Hin as (u & He & Hu).
  pose proof (List.find_none _ _ Hnone u Hu) as Hf. simpl in Hf.
  rewrite He, String.eqb_refl in Hf. discriminate.
Qed.

Lemma select_user_by_username_fresh (username : string)
    (us : list user_row) :
  select_user_by_username username us = None ->
  ~ In username (map u_username us).
Proof.
  unfold select_user_by_username. intros Hnone Hin.
  apply List.in_map_iff in Hin as (u & He & Hu).
  pose proof (List.find_none _ _ Hnone u Hu) as Hf. simpl in Hf.
  rewrite He, String.eqb_refl in Hf. discriminate.
Qed.

Lemma NoDup_map_appended {A B} (g : A -> B) (l : list A) (x : A) :
  NoDup (map g l) -> ~ In (g x) (map g l) -> NoDup (map g (l ++ [x])).
Proof.
  induction l as [|a l IH]; simpl; intros Hnd Hx.
  - apply NoDup_singleton.
  - apply NoDup_cons in Hnd as [Ha Hnd]. apply NoDup_cons. split.
    + intros Hin%list_elem_of_In. rewrite List.map_app in Hin.
      apply List.in_app_or in Hin as [Hin | [Hin | []]].
      * apply Ha, list_elem_of_In, Hin.
      * apply Hx. now left.
    + apply IH; [exact Hnd | tauto].
Qed.

Lemma NoDup_map_filter {A B} (g : A -> B) (f : A -> bool) (l : list A) :
  NoDup (map g l) -> NoDup (map g (List.filter f l)).
Proof.
  induction l as [|a l IH]; simpl; intros Hnd; [exact Hnd|].
  apply NoDup_cons in Hnd as [Ha Hnd].
  destruct (f a); simpl; [|now apply IH].
  apply NoDup_cons. split; [|now apply IH].
  intros Hin%list_elem_of_In. apply Ha, list_elem_of_In.
  apply List.in_map_iff in Hin as (y & Hy & Hin).
  apply List.filter_In in Hin as [Hin _].
  apply List.in_map_iff. now exists y.
Qed.

Lemma update_row_id (e : env) (name : string) (item_count : jsval)
    (image : option string) (id : Z) (c : category_row) :
  c_id (update_row e name item_count image id c) = c_id c.
Proof. unfold update_row. now destruct (c_id c =? id). Qed.

Lemma map_id_update_row (e : env) (name : string) (item_count : jsval)
    (image : option string) (id : Z) (cs : list category_row) :
  map c_id (map (update_row e name item_count image id) cs) = map c_id cs.
Proof.
  induction cs as [|c cs IH]; simpl; [reflexivity|].
  now rewrite update_row_id, IH.
Qed.

Lemma db_insert_user_unique (e : env) (username email password : string) :
  respects (fun w w' => unique_users w -> unique_users w')
    (db_insert_user e username email password).
Proof.
  unfold db_insert_user. apply respects_statement; try solve [auto].
  intros w [He Hu].
  destruct (select_user_by_username username (users w)) eqn:Eu;
    [split; assumption|].
  destruct (select_user_by_email email (users w)) eqn:Ee;
    [split; assumption|].
  split; simpl.
  - apply (NoDup_map_appended u_email); [exact He|].
    now apply select_user_by_email_fresh.
  - apply (NoDup_map_appended u_username); [exact Hu|].
    now apply select_user_by_username_fresh.
Qed.

Lemma keeps_users_unique {A} (m : M A) :
  respects (keeps user_data) m ->
  respects (fun w w' => unique_users w -> unique_users w') m.
Proof.
  intros Hm w Hu. specialize (Hm w). unfold keeps, user_data in Hm.
  unfold unique_users in *. injection Hm as Hus _. now rewrite Hus.
Qed.

Lemma serve_unique_users (r : route) (e : env) (req : request)
    (w : World) :
  unique_users w -> unique_users (serve r e req w).2.
Proof.
  revert w.
  change (respects (fun w w' => unique_users w -> unique_users w')
            (serve r e req)).
  apply respects_serve; try solve [auto].
  - intros. apply db_insert_user_unique.
  - intros. apply keeps_users_unique, db_insert_category_keeps_users.
  - intros. apply keeps_users_unique, db_update_category_keeps_users.
  - intros. apply keeps_users_unique, db_delete_category_keeps_users.
  - intros. apply keeps_users_unique, store_file_keeps_users.
  - intros. apply keeps_users_unique, fs_unlinkSync_keeps_users.
Qed.

(** X13: usernames and emails stay pairwise distinct: after any run of
    requests, each under any plan of store failures, a store whose users
    were distinct in both still has them distinct in both. *)
Theorem users_stay_unique (l : list (route * env * request * list bool))
    (w : World) :
  unique_users w -> unique_users (run_requests l w).
Proof.
  revert w. induction l as [|[[[r e] req] plan] l IH]; simpl; intros w Hu.
  - exact Hu.
  - apply IH. now apply serve_unique_users.
Qed.

Lemma db_insert_category_ids (e : env) (name : string)
    (item_count : jsval) (image : option string) :
  respects (fun w w' => category_ids_ok w -> category_ids_ok w')
    (db_insert_category e name item_count image).
Proof.
  unfold db_insert_category. apply respects_statement; try solve [auto].
  intros w [Hnd Hle]. simpl. split; simpl.
  - apply (NoDup_map_appended c_id); [exact Hnd|]. simpl. intros Hin.
    pose proof (fold_max_bound (categories_seq w) _ _ Hin) as Hb.
    unfold next_rowid in Hb. forget_libraries. lia.
  - apply Forall_app. split.
    + apply List.Forall_forall. intros c Hc.
      pose proof (fold_max_bound (categories_seq w) _ _
                    (in_map c_id _ _ Hc)) as Hb.
      unfold next_rowid. forget_libraries. lia.
    + apply List.Forall_cons; [simpl; forget_libraries; lia|].
      apply List.Forall_nil.
Qed.

Lemma db_update_category_ids (e : env) (name : string)
    (item_count : jsval) (image : option string) (id : Z) :
  respects (fun w w' => category_ids_ok w -> category_ids_ok w')
    (db_update_category e name item_count image id).
Proof.
  unfold db_update_category. apply respects_statement; try solve [auto].
  intros w [Hnd Hle]. split; simpl.
  - now rewrite map_id_update_row.
  - apply List.Forall_forall. intros c Hc.
    apply List.in_map_iff in Hc as (c0 & <- & Hc0).
    rewrite update_row_id.
    exact (proj1 (List.Forall_forall _ _) Hle c0 Hc0).
Qed.

Lemma db_delete_category_ids (id : Z) :
  respects (fun w w' => category_ids_ok w -> category_ids_ok w')
    (db_delete_category id).
Proof.
  unfold db_delete_category. apply respects_statement; try solve [auto].
  intros w [Hnd Hle]. split; simpl.
  - now apply NoDup_map_filter.
  - apply List.Forall_forall. intros c Hc.
    apply List.filter_In in Hc as [Hc _].
    exact (proj1 (List.Forall_forall _ _) Hle c Hc).
Qed.

Lemma keeps_categories_ids {A} (m : M A) :
  respects (keeps category_data) m ->
  respects (fun w w' => category_ids_ok w -> category_ids_ok w') m.
Proof.
  intros Hm w Hu. specialize (Hm w). unfold keeps, category_data in Hm.
  unfold category_ids_ok in *. injection Hm as Hcs Hseq.
  now rewrite Hcs, Hseq.
Qed.

Lemma serve_category_ids (r : route) (e : env) (req : request)
    (w : World) :
  category_ids_ok w -> category_ids_ok (serve r e req w).2.
Proof.
  revert w.
  change (respects (fun w w' => category_ids_ok w -> category_ids_ok w')
            (serve r e req)).
  apply respects_serve; try solve [auto].
  - intros. apply keeps_categories_ids, db_insert_user_keeps_categories.
  - intros. apply db_insert_category_ids.
  - intros. apply db_update_category_ids.
  - intros. apply db_delete_category_ids.
  - intros. apply keeps_categories_ids, store_file_keeps_categories.
  - intros. apply keeps_categories_ids, fs_unlinkSync_keeps_categories.
Qed.

(** X14: category ids stay pairwise distinct and never exceed the
    table's sequence counter: after any run of requests, each under any
    plan of store failures, a store that had both properties still has
    them. *)
Theorem category_ids_stay_ok
    (l : list (route * env * request * list bool)) (w : World) :
  category_ids_ok w -> category_ids_ok (run_requests l w).
Proof.
  revert w. induction l as [|[[[r e] req] plan] l IH]; simpl; intros w Hu.
  - exact Hu.
  - apply IH. now apply serve_category_ids.
Qed.

(** ** More on the category handlers *)


Lemma select_category_by_id_In (id : Z) (cs : list category_row)
    (c : category_row) :
  select_category_by_id id cs = Some c -> In c cs.
Proof.
  unfold select_category_by_id. intros H. now apply List.find_some in H.
Qed.

(** X15: a deleted category's id is not given out again: on a store
    whose ids are below the sequence counter, the category created after
    a delete gets an id above the deleted one. *)
Theorem deleted_id_not_reused (e e' : env) (req req' : request)
    (w : World) (c : category_row) :
  category_ids_ok w ->
  healthy w ->
  select_category_by_id (params_id req) (categories w) = Some c ->
  truthy_field (body_name req') = true ->
  select_category_by_name (str (body_name req'))
    (categories (delete_category e req w).2) = None ->
  exists j w',
    create_category e' req' (delete_category e req w).2
    = (Ok (Respond 201 (CategoryJson j)), w') /\
    c_id c < j_id j /\
    forall d, In d (categories w) -> c_id d < j_id j.
Proof.
  intros [_ Hle] Hw Hc Hn Hfree.
  rewrite (delete_category_deleted e req w c Hw Hc) in *.
  eexists _, _. split; [now apply create_category_created|].
  assert (Hall : forall d, In d (categories w) ->
                   c_id d < c_id (created_row e' req'
                     (set_categories
                        (List.filter
                           (fun c0 => negb (c_id c0 =? params_id req))
                           (categories w))
                        (categories_seq w)
                        (set_uploads (without_image c (uploads w)) w)))).
  { intros d Hd. simpl. unfold next_rowid.
    pose proof (proj1 (List.Forall_forall _ _) Hle d Hd) as Hd'.
    simpl in Hd'.
    assert (Hseq : forall ids, categories_seq w
                               <= fold_right Z.max (categories_seq w) ids).
    { induction ids as [|i ids IH]; simpl; forget_libraries; lia. }
    specialize (Hseq (map c_id
                        (List.filter
                           (fun c0 => negb (c_id c0 =? params_id req))
                           (categories w)))).
    forget_libraries. lia. }
  split; [|exact Hall].
  apply Hall. now apply select_category_by_id_In in Hc.
Qed.


(** X17: the upload is stored before the handler runs, and the handler
    does not take it back: a create request with an accepted image and a
    name that is taken is answered 400, an update request with an
    accepted image and an unknown id is answered 404, and in both cases
    the new file is left in the uploads directory with no row changed. *)
Theorem rejected_request_leaves_upload (e : env) (req : request)
    (w : World) (p : jwt_payload) (f : upload_part) :
  authenticated e req p ->
  part req = Some f ->
  accepted_upload req = true ->
  healthy w ->
  (truthy_field (body_name req) = true ->
   is_Some (select_category_by_name (str (body_name req))
              (categories w)) ->
   serve PostCategories e req w
   = (Ok (Respond 400 (Message "Category already exists")),
      set_uploads ({[storage_filename e f]} ∪ uploads w) w)) /\
  (select_category_by_id (params_id req) (categories w) = None ->
   serve PutCategory e req w
   = (Ok (Respond 404 (Message "Category not found")),
      set_uploads ({[storage_filename e f]} ∪ uploads w) w)).
Proof.
  intros Ha Hp Hu Hw.
  assert (Hst : stored_upload e req w
                = set_uploads ({[storage_filename e f]} ∪ uploads w) w)
    by (unfold stored_upload; now rewrite Hp).
  split.
  - intros Hn [c Hc]. rewrite (serve_post_reaches e req w p Ha Hu), Hst.
    apply (create_category_duplicate e _ _ c); [exact Hw| |].
    + now rewrite after_upload_body_name.
    + now rewrite after_upload_body_name.
  - intros Hc. rewrite (serve_put_reaches e req w p Ha Hu), Hst.
    apply update_category_missing; [exact Hw|].
    now rewrite after_upload_params_id.
Qed.

Lemma nth_error_update_row (e : env) (name : string) (item_count : jsval)
    (image : option string) (id : Z) (cs : list category_row) (i : nat)
    (d : category_row) :
  nth_error cs i = Some d ->
  c_id d <> id ->
  nth_error (map (update_row e name item_count image id) cs) i = Some d.
Proof.
  intros Hd Hne. rewrite List.nth_error_map, Hd. simpl.
  unfold update_row. now rewrite (proj2 (Z.eqb_neq _ _) Hne).
Qed.

Lemma update_category_rows (e : env) (req : request) (w : World)
    (c : category_row) :
  healthy w ->
  select_category_by_id (params_id req) (categories w) = Some c ->
  exists name item_count image,
    categories (update_category e req w).2
    = map (update_row e name item_count image (params_id req))
        (categories w) /\
    uploads (update_category e req w).2 = uploads w.
Proof.
  intros Hw Hc. unfold update_category.
  erewrite try_catch_run.
  2:{ rewrite (bind_run _ _ _ _ _ (getDb_healthy w Hw)).
      rewrite (bind_run _ _ _ _ _ (db_get_category_by_id_healthy _ w Hw)).
      rewrite Hc.
      rewrite (bind_run _ _ _ _ _
                 (db_update_category_healthy e _ _ _ _ w Hw)).
      erewrite bind_run; [|apply db_get_category_by_id_healthy; exact Hw].
      cbn [categories set_categories].
      rewrite select_category_by_id_updated, Hc. reflexivity. }
  eexists _, _, _. split; reflexivity.
Qed.

(** X18: an update changes the rows of its id only: the table keeps its
    length, every row of another id stays where it was, and the uploads
    directory is as the handler found it. *)
Theorem update_leaves_other_rows (e : env) (req : request) (w : World)
    (c : category_row) :
  healthy w ->
  select_category_by_id (params_id req) (categories w) = Some c ->
  length (categories (update_category e req w).2)
  = length (categories w) /\
  (forall i d,
     nth_error (categories w) i = Some d ->
     c_id d <> params_id req ->
     nth_error (categories (update_category e req w).2) i = Some d) /\
  uploads (update_category e req w).2 = uploads w.
Proof.
  intros Hw Hc.
  destruct (update_category_rows e req w c Hw Hc)
    as (name & item_count & image & -> & ->).
  split; [apply List.length_map|]. split; [|reflexivity].
  intros i d Hd Hne. now apply nth_error_update_row.
Qed.

(** X19: an update does not look for the new name among the other
    categories: renaming a category to the name of another one is
    answered 200, and afterwards both rows carry that name. *)
Theorem update_allows_duplicate_name (e : env) (req : request)
    (w : World) (c d : category_row) :
  healthy w ->
  select_category_by_id (params_id req) (categories w) = Some c ->
  In d (categories w) ->
  c_id d <> params_id req ->
  truthy_field (body_name req) = true ->
  c_name d = str (body_name req) ->
  exists c' w',
    update_category e req w
    = (Ok (Respond 200 (CategoryJson (transform c'))), w') /\
    select_category_by_id (params_id req) (categories w') = Some c' /\
    c_name c' = c_name d /\
    In d (categories w') /\
    c_id c' <> c_id d.
Proof.
  intros Hw Hc Hd Hne Hn Hname.
  destruct (update_category_updated e req w c Hw Hc)
    as (w' & Hrun & Hsel & _ & _).
  destruct (update_category_rows e req w c Hw Hc)
    as (name & item_count & image & Hrows & _).
  exists (merged_row e req c), w'.
  destruct (merged_row_fields e req c) as (Fid & Fname & _).
  { now apply select_category_by_id_id in Hc. }
  repeat split; try assumption.
  - now rewrite Fname, Hn, Hname.
  - apply List.In_nth_error in Hd as [i Hi].
    rewrite Hrun in Hrows. simpl in Hrows. rewrite Hrows.
    apply (List.nth_error_In _ i).
    now apply nth_error_update_row.
  - rewrite Fid. apply select_category_by_id_id in Hc. congruence.
Qed.

(** ** Deleting: what is left alone *)

(** X20: a delete removes the rows of its id and the file of that row's
    image, and nothing else: every row of another id is still stored,
    no row appears, every other file is still on disk, no file appears,
    and the users table is untouched. *)
Theorem delete_leaves_the_rest (e : env) (req : request) (w : World)
    (c : category_row) :
  healthy w ->
  select_category_by_id (params_id req) (categories w) = Some c ->
  (forall d, In d (categories (delete_category e req w).2) <->
             In d (categories w) /\ c_id d <> params_id req) /\
  (forall name, name ∈ uploads (delete_category e req w).2 <->
                name ∈ uploads w /\
                (truthy_field (c_image c) = true ->
                 name <> str (c_image c))) /\
  users (delete_category e req w).2 = users w.
Proof. forget_libraries.
  intros Hw Hc. rewrite (delete_category_deleted e req w c Hw Hc).
  cbn [snd categories set_categories uploads set_uploads users].
  split; [|split; [|reflexivity]].
  - intros d. rewrite List.filter_In, negb_true_iff, Z.eqb_neq. tauto.
  - intros name. unfold without_image.
    destruct (truthy_field (c_image c)).
    + rewrite elem_of_difference, elem_of_singleton. intuition.
    + intuition discriminate.
Qed.

(** X21: deleting an id that no row has is answered 404 "Category not
    found" and changes nothing: no row and no file is removed. *)
Theorem delete_unknown_id (e : env) (req : request) (w : World)
    (p : jwt_payload) :
  authenticated e req p ->
  healthy w ->
  select_category_by_id (params_id req) (categories w) = None ->
  serve DeleteCategory e req w
  = (Ok (Respond 404 (Message "Category not found")), w).
Proof.
  intros Ha Hw Hc. rewrite (serve_delete_reaches e req w p Ha).
  now apply delete_category_missing.
Qed.

(** ** Listing *)

Lemma insert_newest_first_perm (c : category_row)
    (l : list category_row) :
  Permutation (insert_newest_first c l) (c :: l).
Proof.
  induction l as [|x l IH]; simpl; [reflexivity|].
  destruct (c_created_at x <=? c_created_at c); [reflexivity|].
  rewrite IH. apply perm_swap.
Qed.

Lemma order_by_created_at_desc_perm (l : list category_row) :
  Permutation (order_by_created_at_desc l) l.
Proof.
  induction l as [|c l IH]; simpl; [reflexivity|].
  rewrite insert_newest_first_perm. now constructor.
Qed.

Lemma newest_first_trans (a b c : category_row) :
  newest_first a b -> newest_first b c -> newest_first a c.
Proof. unfold newest_first. forget_libraries. lia. Qed.

Lemma insert_newest_first_sorted (c : category_row)
    (l : list category_row) :
  StronglySorted newest_first l ->
  StronglySorted newest_first (insert_newest_first c l).
Proof.
  induction l as [|x l IH]; simpl; intros Hs.
  - constructor; constructor.
  - apply StronglySorted_inv in Hs as [Hs Hx].
    destruct (Z.leb_spec (c_created_at x) (c_created_at c)) as [Hle|Hgt].
    + constructor; [now constructor|].
      constructor; [exact Hle|].
      eapply List.Forall_impl; [|exact Hx].
      intros d Hd. now apply (newest_first_trans c x d).
    + constructor; [now apply IH|].
      apply List.Forall_forall. intros d Hd.
      apply (Permutation_in _ (insert_newest_first_perm c l)) in Hd.
      destruct Hd as [<- | Hd].
      * unfold newest_first. forget_libraries. lia.
      * exact (proj1 (List.Forall_forall _ _) Hx d Hd).
Qed.

Lemma order_by_created_at_desc_sorted (l : list category_row) :
  StronglySorted newest_first (order_by_created_at_desc l).
Proof.
  induction l as [|c l IH]; simpl; [constructor|].
  now apply insert_newest_first_sorted.
Qed.

Lemma db_all_categories_healthy (w : World) :
  healthy w ->
  db_all_categories w
  = (Ok (order_by_created_at_desc (categories w)), w).
Proof.
  intros H. unfold db_all_categories.
  now rewrite (bind_run _ _ _ _ _ (store_call_healthy w H)).
Qed.

Lemma list_categories_total (e : env) (req : request) (w : World) :
  exists r w', list_categories e req w = (Ok r, w').
Proof. apply try_catch_total, server_error_run. Qed.

(** X22: the list route answers with every stored category exactly once,
    newest first, each with its image name turned into an uploads path
    (or null), and leaves the world as it was. *)
Theorem list_newest_first (e : env) (req : request) (w : World)
    (p : jwt_payload) :
  authenticated e req p ->
  healthy w ->
  exists rows,
    serve GetCategories e req w
    = (Ok (Respond 200 (CategoriesJson (map transform rows))), w) /\
    Permutation rows (categories w) /\
    StronglySorted newest_first rows /\
    forall c, In c rows ->
      j_image (transform c)
      = (if truthy_field (c_image c)
         then Some ("/uploads/" +:+ str (c_image c)) else None).
Proof.
  intros Ha Hw. exists (order_by_created_at_desc (categories w)).
  split; [|split; [|split]].
  - simpl. rewrite (auth_reaches e req _ w p Ha);
      [|apply list_categories_total].
    unfold list_categories. apply try_catch_run.
    rewrite (bind_run _ _ _ _ _ (getDb_healthy w Hw)).
    now rewrite (bind_run _ _ _ _ _ (db_all_categories_healthy w Hw)).
  - apply order_by_created_at_desc_perm.
  - apply order_by_created_at_desc_sorted.
  - reflexivity.
Qed.

(** ** Every request is answered *)

Lemma ensures_ret {A} (Q : A -> Prop) (a : A) :
  Q a -> ensures Q (mret a : M A).
Proof. intros Ha w a' w' H. injection H as <- _. exact Ha. Qed.

Lemma ensures_throw {A} (Q : A -> Prop) (x : exn) :
  ensures Q (throw x : M A).
Proof. intros w a w' H. discriminate. Qed.

Lemma ensures_bind {A B} (Q : B -> Prop) (m : M A) (f : A -> M B) :
  (forall a, ensures Q (f a)) -> ensures Q (m ≫= f).
Proof.
  intros Hf w b w'. unfold mbind, M_bind.
  destruct (m w) as [[a|x] w1]; [apply Hf | discriminate].
Qed.

Lemma ensures_try_catch {A} (Q : A -> Prop) (m : M A) (h : exn -> M A) :
  ensures Q m -> (forall x, ensures Q (h x)) -> ensures Q (try_catch m h).
Proof.
  intros Hm Hh w a w'. unfold try_catch.
  specialize (Hm w). destruct (m w) as [[a0|x] w1].
  - intros H. injection H as <- _. now apply (Hm a0 w1).
  - apply Hh.
Qed.

Ltac ensures_step :=
  match goal with
  | |- ensures _ (try_catch _ _) => apply ensures_try_catch
  | |- ensures _ (mbind _ _) => apply ensures_bind
  | |- ensures _ (server_error _) => unfold server_error
  | |- ensures _ (mret _) => apply ensures_ret; simpl; auto 10
  | |- ensures _ (throw _) => apply ensures_throw
  | |- ensures _ (if ?b then _ else _) => destruct b
  | |- ensures _ (match ?x with _ => _ end) => destruct x
  | |- forall _, _ => intro
  | H : forall r, ensures _ (?next r) |- ensures _ (?next _) => apply H
  end.

Lemma known_reply_auth (r : route) (e : env) (req : request)
    (next : request -> M reply) :
  (forall r', ensures (known_reply r) (next r')) ->
  ensures (known_reply r) (auth e req next).
Proof. intros Hn. unfold auth. repeat ensures_step. Qed.

Lemma known_reply_upload_single (r : route) (e : env) (req : request)
    (next : request -> M reply) :
  r = PostCategories \/ r = PutCategory ->
  (forall r', ensures (known_reply r) (next r')) ->
  ensures (known_reply r) (upload_single "image" e req next).
Proof. intros Hr Hn. unfold upload_single. repeat ensures_step. Qed.

Lemma known_reply_register (r : route) (e : env) (req : request) :
  ensures (known_reply r) (register e req).
Proof. unfold register. repeat ensures_step. Qed.

Lemma known_reply_login (r : route) (e : env) (req : request) :
  ensures (known_reply r) (login e req).
Proof. unfold login. repeat ensures_step. Qed.

Lemma known_reply_get_user (r : route) (e : env) (req : request) :
  ensures (known_reply r) (get_user e req).
Proof. unfold get_user. repeat ensures_step. Qed.

Lemma known_reply_list_categories (r : route) (e : env) (req : request) :
  ensures (known_reply r) (list_categories e req).
Proof. unfold list_categories. repeat ensures_step. Qed.

Lemma known_reply_create_category (r : route) (e : env) (req : request) :
  ensures (known_reply r) (create_category e req).
Proof. unfold create_category. repeat ensures_step. Qed.

Lemma known_reply_update_category (r : route) (e : env) (req : request) :
  ensures (known_reply r) (update_category e req).
Proof. unfold update_category. repeat ensures_step. Qed.

Lemma known_reply_delete_category (r : route) (e : env) (req : request) :
  ensures (known_reply r) (delete_category e req).
Proof. unfold delete_category. repeat ensures_step. Qed.

Lemma auth_replies (e : env) (req : request) (next : request -> M reply) :
  replies (auth e req next).
Proof. intros w. apply try_catch_total. intros x w1. now eexists _, _. Qed.

Lemma serve_replies (r : route) (e : env) (req : request) :
  replies (serve r e req).
Proof.
  destruct r; simpl; try apply auth_replies.
  - intros w. unfold register.
    destruct (negb _ || negb _ || negb _); [now eexists _, _|].
    apply try_catch_total, server_error_run.
  - intros w. unfold login.
    destruct (negb _ || negb _); [now eexists _, _|].
    apply try_catch_total, server_error_run.
Qed.

(** X24: every route answers every request, whatever the store does:
    no exception gets out of a route, the response status is one of 200,
    201, 400, 401, 404 and 500, and an error is handed to the framework
    only by the two routes that take an upload. *)
Theorem every_request_answered (r : route) (e : env) (req : request)
    (w : World) :
  exists rep w', serve r e req w = (Ok rep, w') /\ known_reply r rep.
Proof.
  destruct (serve_replies r e req w) as (rep & w' & Hrun).
  exists rep, w'. split; [exact Hrun|].
  revert w rep w' Hrun. change (ensures (known_reply r) (serve r e req)).
  destruct r; simpl.
  - apply known_reply_register.
  - apply known_reply_login.
  - apply known_reply_auth. intros r. apply known_reply_get_user.
  - apply known_reply_auth. intros r. apply known_reply_list_categories.
  - apply known_reply_auth. intros r.
    apply known_reply_upload_single; [now left|].
    intros r'. apply known_reply_create_category.
  - apply known_reply_auth. intros r.
    apply known_reply_upload_single; [now right|].
    intros r'. apply known_reply_update_category.
  - apply known_reply_auth. intros r. apply known_reply_delete_category.
Qed.

(** ** When the store cannot be opened *)

Lemma getDb_fails_run {A} (f : unit -> M A) (w : World)
    (rest : list bool) :
  faults w = true :: rest ->
  (getDb ≫= f) w
  = (Throw (SqliteError "SQLITE_ERROR"), with_faults rest w).
Proof. intros H. now apply bind_throw, store_call_fails. Qed.

(** X25: when opening the store fails, every handler whose request
    passes validation answers 500 "Server error", and tables, counters
    and files are as they were. *)
Theorem store_down_answers_500 (e : env) (req : request) (w : World)
    (rest : list bool) :
  faults w = true :: rest ->
  (truthy_field (body_username req) = true ->
   truthy_field (body_email req) = true ->
   truthy (body_password req) = true ->
   register e req w
   = (Ok (Respond 500 (Message "Server error")), with_faults rest w)) /\
  (truthy_field (body_email req) = true ->
   truthy (body_password req) = true ->
   login e req w
   = (Ok (Respond 500 (Message "Server error")), with_faults rest w)) /\
  get_user e req w
  = (Ok (Respond 500 (Message "Server error")), with_faults rest w) /\
  list_categories e req w
  = (Ok (Respond 500 (Message "Server error")), with_faults rest w) /\
  (truthy_field (body_name req) = true ->
   create_category e req w
   = (Ok (Respond 500 (Message "Server error")), with_faults rest w)) /\
  update_category e req w
  = (Ok (Respond 500 (Message "Server error")), with_faults rest w) /\
  delete_category e req w
  = (Ok (Respond 500 (Message "Server error")), with_faults rest w).
Proof.
  intros Hf. repeat split.
  - intros Hu He Hp. unfold register. rewrite Hu, He, Hp. simpl.
    erewrite try_catch_throw; [reflexivity | now apply getDb_fails_run].
  - intros He Hp. unfold login. rewrite He, Hp. simpl.
    erewrite try_catch_throw; [reflexivity | now apply getDb_fails_run].
  - unfold get_user.
    erewrite try_catch_throw; [reflexivity | now apply getDb_fails_run].
  - unfold list_categories.
    erewrite try_catch_throw; [reflexivity | now apply getDb_fails_run].
  - intros Hn. unfold create_category. rewrite Hn. simpl.
    erewrite try_catch_throw; [reflexivity | now apply getDb_fails_run].
  - unfold update_category.
    erewrite try_catch_throw; [reflexivity | now apply getDb_fails_run].
  - unfold delete_category.
    erewrite try_catch_throw; [reflexivity | now apply getDb_fails_run].
Qed.

(** ** Seeding *)

Lemma db_count_users_healthy (w : World) :
  healthy w ->
  db_count_users w = (Ok (Z.of_nat (length (users w))), w).
Proof.
  intros H. unfold db_count_users.
  now rewrite (bind_run _ _ _ _ _ (store_call_healthy w H)).
Qed.

Lemma db_count_categories_healthy (w : World) :
  healthy w ->
  db_count_categories w = (Ok (Z.of_nat (length (categories w))), w).
Proof.
  intros H. unfold db_count_categories.
  now rewrite (bind_run _ _ _ _ _ (store_call_healthy w H)).
Qed.

Lemma count_is_zero {A} (l : list A) :
  (Z.of_nat (length l) =? 0) = (if l is [] then true else false).
Proof. now destruct l. Qed.

Lemma insert_each_healthy (e : env) (l : list (string * Z * string))
    (w : World) :
  healthy w ->
  exists w',
    insert_each e l w = (Ok tt, w') /\ healthy w' /\
    user_data w' = user_data w /\ uploads w' = uploads w /\
    (l <> [] -> categories w' <> []).
Proof.
  revert w. induction l as [|[[name itemCount] image] l IH]; intros w Hw.
  - exists w. now repeat split.
  - simpl.
    rewrite (bind_run _ _ _ _ _
               (db_insert_category_healthy e name (JNum itemCount)
                  (Some image) w Hw)).
    destruct (IH (set_categories
                    (categories w ++
                     [{| c_id := next_rowid (categories_seq w)
                                   (map c_id (categories w));
                         c_name := name;
                         c_item_count := bind_param (JNum itemCount);
                         c_image := Some image;
                         c_created_at := CURRENT_TIMESTAMP e;
                         c_updated_at := CURRENT_TIMESTAMP e |}])
                    (next_rowid (categories_seq w)
                       (map c_id (categories w))) w) Hw)
      as (w' & Hrun & Hw' & Hus & Hup & Hne).
    exists w'. repeat split; try assumption.
    intros _. destruct l as [|x l].
    + simpl in Hrun. injection Hrun as <-. simpl.
      now destruct (categories w).
    + apply Hne. discriminate.
Qed.

(** [initDb] on a store that answers: each table that holds a row is
    left alone, each empty one is seeded. *)
Lemma initDb_run (e : env) (w : World) :
  healthy w ->
  exists w',
    initDb e w = (Ok tt, w') /\ healthy w' /\
    (users w <> [] -> user_data w' = user_data w) /\
    (categories w <> [] -> category_data w' = category_data w) /\
    uploads w' = uploads w /\
    users w' <> [] /\ categories w' <> [].
Proof.
  intros Hw. unfold initDb.
  do 4 rewrite (bind_run _ _ _ _ _ (store_call_healthy w Hw)).
  rewrite (bind_run _ _ _ _ _ (db_count_users_healthy w Hw)).
  rewrite count_is_zero.
  assert (Hseed : exists w1,
             (if (if users w is [] then true else false) then
                _ ← db_insert_user e "admin" "admin@example.com"
                      (bcrypt_hash "password123" (bcrypt_genSalt e 10));
                mret tt
              else mret tt) w = (Ok tt, w1) /\ healthy w1 /\
             (users w <> [] -> user_data w1 = user_data w) /\
             category_data w1 = category_data w /\
             uploads w1 = uploads w /\ users w1 <> []).
  { destruct (users w) as [|u us] eqn:Hus.
    - eexists. split.
      + erewrite bind_run; [reflexivity|].
        apply db_insert_user_healthy; [exact Hw | |]; now rewrite Hus.
      + repeat split; try easy. simpl. rewrite Hus. discriminate.
    - exists w. repeat split; try easy. now rewrite Hus. }
  destruct Hseed as (w1 & Hrun1 & Hw1 & Hu1 & Hc1 & Hf1 & Hne1).
  rewrite (bind_run _ _ _ _ _ Hrun1).
  rewrite (bind_run _ _ _ _ _ (db_count_categories_healthy w1 Hw1)).
  rewrite count_is_zero.
  assert (Hcs : categories w1 = categories w)
    by (unfold category_data in Hc1; congruence).
  destruct (categories w1) as [|c cs] eqn:Hcat.
  - rewrite (bind_run _ _ _ _ _ (store_call_healthy w1 Hw1)).
    destruct (insert_each_healthy e sampleCategories_data w1 Hw1)
      as (w2 & Hrun2 & Hw2 & Hu2 & Hf2 & Hne2).
    rewrite (bind_run _ _ _ _ _ Hrun2).
    rewrite (store_call_healthy w2 Hw2).
    exists w2. repeat split; try assumption.
    + intros Hn. rewrite Hu2. now apply Hu1.
    + intros Hn. now rewrite <- Hcs in Hn.
    + congruence.
    + unfold user_data in Hu2. injection Hu2 as Hu2 _. now rewrite Hu2.
    + apply Hne2. discriminate.
  - exists w1. repeat split; try assumption.
    + intros _. rewrite <- Hcat in *. exact Hc1.
    + now rewrite Hcat.
Qed.

Lemma initDb_seeded (e : env) (w : World) :
  healthy w -> users w <> [] -> categories w <> [] ->
  initDb e w = (Ok tt, w).
Proof.
  intros Hw Hu Hc. unfold initDb.
  do 4 rewrite (bind_run _ _ _ _ _ (store_call_healthy w Hw)).
  rewrite (bind_run _ _ _ _ _ (db_count_users_healthy w Hw)).
  rewrite count_is_zero.
  destruct (users w) as [|u us] eqn:Hus; [contradiction|].
  unfold mbind at 1, M_bind at 1, mret at 1, M_ret at 1.
  rewrite (bind_run _ _ _ _ _ (db_count_categories_healthy w Hw)).
  rewrite count_is_zero.
  now destruct (categories w) as [|c cs] eqn:Hcs.
Qed.

(** X26: [initDb] seeds only what is empty and can be run again: on a
    store that answers, a users table that holds a row and a categories
    table that holds a row come out as they went in, both tables hold
    rows afterwards, and a second run changes nothing at all. *)
Theorem initDb_keeps_rows_and_is_idempotent (e : env) (w : World) :
  healthy w ->
  exists w',
    initDb e w = (Ok tt, w') /\
    (users w <> [] -> users w' = users w) /\
    (categories w <> [] -> categories w' = categories w) /\
    uploads w' = uploads w /\
    forall e', initDb e' w' = (Ok tt, w').
Proof.
  intros Hw.
  destruct (initDb_run e w Hw)
    as (w' & Hrun & Hw' & Hu & Hc & Hf & Hnu & Hnc).
  exists w'. repeat split; try assumption.
  - intros Hne. specialize (Hu Hne). unfold user_data in Hu. congruence.
  - intros Hne. specialize (Hc Hne). unfold category_data in Hc.
    congruence.
  - intros e'. now apply initDb_seeded.
Qed.

Lemma next_rowid_above (seq : Z) (ids : list Z) :
  Forall (fun i => i <= seq) ids -> next_rowid seq ids = seq + 1.
Proof.
  forget_libraries. unfold next_rowid.
  induction 1 as [|i ids Hi _ IH]; simpl; lia.
Qed.

(** The inserts of the seeding, one after the other: each row takes the
    id after the counter, whatever the counter was. *)
Lemma insert_each_run (e : env) (l : list (string * Z * string))
    (w : World) :
  healthy w ->
  Forall (fun c => c_id c <= categories_seq w) (categories w) ->
  exists w',
    insert_each e l w = (Ok tt, w') /\ healthy w' /\
    users w' = users w /\ uploads w' = uploads w /\
    categories w'
    = (categories w ++ seeded_rows e (categories_seq w) l)%list.
Proof.
  revert w. induction l as [|[[name itemCount] image] l IH];
    intros w Hw Hids.
  - exists w. repeat split; try easy. simpl. now rewrite app_nil_r.
  - simpl.
    rewrite (bind_run _ _ _ _ _
               (db_insert_category_healthy e name (JNum itemCount)
                  (Some image) w Hw)).
    assert (Hnext : next_rowid (categories_seq w) (map c_id (categories w))
                    = categories_seq w + 1).
    { apply next_rowid_above, List.Forall_forall. intros i Hi.
      apply in_map_iff in Hi as (c & <- & Hin).
      exact (proj1 (List.Forall_forall _ _) Hids c Hin). }
    rewrite Hnext.
    destruct (IH (set_categories
                    (categories w ++
                     [seeded_category e (categories_seq w + 1)
                        (name, itemCount, image)])
                    (categories_seq w + 1) w) Hw)
      as (w' & Hrun & Hw' & Hus & Hup & Hcs).
    { simpl. apply Forall_app. split.
      - eapply Forall_impl; [exact Hids|]. simpl. forget_libraries.
        intros c Hc. lia.
      - repeat constructor. simpl. forget_libraries. lia. }
    exists w'. repeat split; try assumption.
    rewrite Hcs. simpl. now rewrite <- app_assoc.
Qed.

(** [initDb] on a store that answers and holds no row. *)
Lemma initDb_rowless (e : env) (w : World) :
  healthy w -> users w = [] -> categories w = [] ->
  exists w',
    initDb e w = (Ok tt, w') /\ healthy w' /\
    users w' = [seeded_admin e w] /\
    categories w'
    = seeded_rows e (categories_seq w) sampleCategories_data /\
    uploads w' = uploads w.
Proof.
  intros Hw Hu Hc. unfold initDb.
  do 4 rewrite (bind_run _ _ _ _ _ (store_call_healthy w Hw)).
  rewrite (bind_run _ _ _ _ _ (db_count_users_healthy w Hw)).
  rewrite count_is_zero, Hu.
  erewrite bind_run.
  2:{ erewrite bind_run; [reflexivity|].
      apply db_insert_user_healthy; [exact Hw | |]; now rewrite Hu. }
  rewrite Hu. simpl app. simpl map.
  set (w1 := set_users _ _ w).
  assert (Hw1 : healthy w1) by exact Hw.
  rewrite (bind_run _ _ _ _ _ (db_count_categories_healthy w1 Hw1)).
  rewrite count_is_zero.
  change (categories w1) with (categories w). rewrite Hc.
  rewrite (bind_run _ _ _ _ _ (store_call_healthy w1 Hw1)).
  destruct (insert_each_run e sampleCategories_data w1 Hw1)
    as (w2 & Hrun & Hw2 & Hus & Hup & Hcs).
  { change (categories w1) with (categories w). rewrite Hc. constructor. }
  rewrite (bind_run _ _ _ _ _ Hrun).
  rewrite (store_call_healthy w2 Hw2).
  exists w2. repeat split; try assumption.
  - rewrite Hus. unfold w1, seeded_admin, next_rowid. simpl.
    do 2 f_equal. forget_libraries. lia.
  - rewrite Hcs. change (categories w1) with (categories w).
    now rewrite Hc.
Qed.

(** X27: on a store without rows, [initDb] inserts the user admin with
    the bcrypt hash of "password123" and the six sample categories, in
    the order of the source, under the ids that follow the counters of
    the two tables (1, and 1 to 6, on a store that never held a row),
    and touches no file; when the hash verifies and a token can be
    signed, logging in as admin@example.com with "password123" is then
    answered 200 for that user. *)
Theorem seeded_admin_can_log_in (e e' : env) (req : request) (w : World)
    (token : string) :
  healthy w -> users w = [] -> categories w = [] ->
  body_email req = Some "admin@example.com" ->
  body_password req = JStr "password123" ->
  bcrypt_compare "password123"
    (bcrypt_hash "password123" (bcrypt_genSalt e 10)) = true ->
  jwt_sign (Date_now e')
    {| jwt_id := users_seq w + 1; jwt_username := "admin";
       jwt_email := "admin@example.com" |}
    (JWT_SECRET e') "1h" = Ok token ->
  exists w',
    initDb e w = (Ok tt, w') /\
    users w'
    = [{| u_id := users_seq w + 1; u_username := "admin";
          u_email := "admin@example.com";
          u_password := bcrypt_hash "password123" (bcrypt_genSalt e 10);
          u_created_at := CURRENT_TIMESTAMP e |}] /\
    map (fun c => (c_id c, c_name c, c_item_count c, c_image c))
      (categories w')
    = map (fun '(i, (name, itemCount, image)) =>
             (categories_seq w + i, name, SqlInt itemCount, Some image))
        (combine [1; 2; 3; 4; 5; 6] sampleCategories_data) /\
    uploads w' = uploads w /\
    login e' req w'
    = (Ok (Respond 200
             (LoginOk token
                {| pu_id := users_seq w + 1; pu_username := "admin";
                   pu_email := "admin@example.com" |})), w').
Proof.
  intros Hw Hu Hc He Hp Hcmp Hs.
  destruct (initDb_rowless e w Hw Hu Hc)
    as (w' & Hrun & Hw' & Hus & Hcs & Hup).
  exists w'. split; [exact Hrun|]. split; [exact Hus|].
  split; [|split; [exact Hup|]].
  - rewrite Hcs. simpl. forget_libraries.
    replace (categories_seq w + 1 + 1) with (categories_seq w + 2) by lia.
    replace (categories_seq w + 2 + 1) with (categories_seq w + 3) by lia.
    replace (categories_seq w + 3 + 1) with (categories_seq w + 4) by lia.
    replace (categories_seq w + 4 + 1) with (categories_seq w + 5) by lia.
    replace (categories_seq w + 5 + 1) with (categories_seq w + 6) by lia.
    reflexivity.
  - rewrite (login_known_user e' req w' (seeded_admin e w)).
    + rewrite He. simpl. now rewrite Hs.
    + now rewrite He.
    + now rewrite Hp.
    + exact Hw'.
    + now rewrite He, Hus.
    + now rewrite Hp.
Qed.

(** ** A category with its image, from create to delete *)

Lemma filter_other_ids_appended (cs : list category_row)
    (row : category_row) :
  (forall c, In c cs -> c_id c <> c_id row) ->
  List.filter (fun c => negb (c_id c =? c_id row)) (cs ++ [row]) = cs.
Proof.
  intros Hfresh. induction cs as [|c cs IH]; simpl.
  - now rewrite Z.eqb_refl.
  - rewrite (proj2 (Z.eqb_neq _ _) (Hfresh c (or_introl eq_refl))). simpl.
    f_equal. apply IH. intros c' Hc'. apply Hfresh. now right.
Qed.

Lemma storage_filename_truthy (e : env) (f : upload_part) :
  fieldname f = "image" ->
  truthy_field (Some (storage_filename e f)) = true.
Proof. intros Hn. unfold storage_filename. now rewrite Hn. Qed.

Lemma accepted_upload_fieldname (req : request) (f : upload_part) :
  part req = Some f -> accepted_upload req = true -> fieldname f = "image".
Proof.
  unfold accepted_upload. intros ->. intros H.
  apply andb_prop in H as [H _]. apply andb_prop in H as [H _].
  now apply String.eqb_eq.
Qed.

(** The create route on a new name with an accepted image. *)
Lemma serve_post_created (e : env) (req : request) (w : World)
    (p : jwt_payload) (f : upload_part) :
  authenticated e req p ->
  part req = Some f ->
  accepted_upload req = true ->
  healthy w ->
  truthy_field (body_name req) = true ->
  select_category_by_name (str (body_name req)) (categories w) = None ->
  exists row,
    serve PostCategories e req w
    = (Ok (Respond 201
             (CategoryJson
                {| j_id := c_id row; j_name := c_name row;
                   j_itemCount := c_item_count row;
                   j_image := Some ("/uploads/" +:+ storage_filename e f);
                   j_createdAt := c_created_at row;
                   j_updatedAt := c_updated_at row |})),
       set_categories (categories w ++ [row]) (c_id row)
         (set_uploads ({[storage_filename e f]} ∪ uploads w) w)) /\
    c_image row = Some (storage_filename e f) /\
    c_name row = str (body_name req) /\
    (forall c, In c (categories w) -> c_id c <> c_id row).
Proof.
  intros Ha Hp Hu Hw Hn Hfree.
  set (req' := after_upload e (set_req_user p req)).
  assert (Hst : stored_upload e req w
                = set_uploads ({[storage_filename e f]} ∪ uploads w) w)
    by (unfold stored_upload; now rewrite Hp).
  assert (Hfile : req_file req' = Some {| filename := storage_filename e f |})
    by (unfold req', after_upload; simpl; now rewrite Hp).
  assert (Hname : body_name req' = body_name req)
    by (unfold req'; now rewrite after_upload_body_name).
  exists (created_row e req' (stored_upload e req w)).
  rewrite (serve_post_reaches e req w p Ha Hu). fold req'.
  rewrite (create_category_created e req' (stored_upload e req w)).
  - rewrite Hst. simpl. rewrite Hfile, Hname. simpl.
    unfold uploads_path.
    rewrite (storage_filename_truthy e f
               (accepted_upload_fieldname req f Hp Hu)).
    repeat split. intros c Hc. now apply next_rowid_fresh.
  - now apply stored_upload_healthy.
  - now rewrite Hname.
  - now rewrite stored_upload_categories, Hname.
Qed.

(** X28: a category created with an accepted image names a file that is
    on disk: the new row is appended with the generated file name as its
    image, that file is in the uploads directory, and the reply gives
    its path under /uploads/. *)
Theorem created_image_is_on_disk (e : env) (req : request) (w : World)
    (p : jwt_payload) (f : upload_part) :
  authenticated e req p ->
  part req = Some f ->
  accepted_upload req = true ->
  healthy w ->
  truthy_field (body_name req) = true ->
  select_category_by_name (str (body_name req)) (categories w) = None ->
  exists j row w',
    serve PostCategories e req w
    = (Ok (Respond 201 (CategoryJson j)), w') /\
    categories w' = (categories w ++ [row])%list /\
    c_image row = Some (storage_filename e f) /\
    storage_filename e f ∈ uploads w' /\
    j_image j = Some ("/uploads/" +:+ storage_filename e f) /\
    j_id j = c_id row.
Proof.
  intros Ha Hp Hu Hw Hn Hfree.
  destruct (serve_post_created e req w p f Ha Hp Hu Hw Hn Hfree)
    as (row & Hrun & Himg & _ & _).
  eexists _, row, _. split; [exact Hrun|].
  repeat split; try assumption. simpl. forget_libraries. set_solver.
Qed.

(** X29: creating a category with an image and then deleting it gives
    back the table and the directory: when the generated file name was
    not in use, the rows and the files after the delete are the rows
    and the files before the create. *)
Theorem create_then_delete_restores (e e2 : env) (req req2 : request)
    (w : World) (p p2 : jwt_payload) (f : upload_part) :
  authenticated e req p ->
  part req = Some f ->
  accepted_upload req = true ->
  healthy w ->
  truthy_field (body_name req) = true ->
  select_category_by_name (str (body_name req)) (categories w) = None ->
  storage_filename e f ∉ uploads w ->
  authenticated e2 req2 p2 ->
  exists j w1 w2,
    serve PostCategories e req w
    = (Ok (Respond 201 (CategoryJson j)), w1) /\
    (params_id req2 = j_id j ->
     serve DeleteCategory e2 req2 w1
     = (Ok (Respond 200 (Message "Category deleted successfully")), w2) /\
     categories w2 = categories w /\
     uploads w2 = uploads w /\
     users w2 = users w).
Proof.
  intros Ha Hp Hu Hw Hn Hfree Hnew Ha2.
  destruct (serve_post_created e req w p f Ha Hp Hu Hw Hn Hfree)
    as (row & Hrun & Himg & _ & Hfresh).
  eexists _, _, _. split; [exact Hrun|].
  intros Hid. simpl in Hid.
  rewrite (serve_delete_reaches e2 req2 _ p2 Ha2).
  rewrite (delete_category_deleted e2 _ _ row).
  - split; [reflexivity|].
    cbn [categories set_categories uploads set_uploads users
           set_req_user params_id].
    rewrite Hid. split; [now apply filter_other_ids_appended|].
    split; [|reflexivity].
    unfold without_image. rewrite Himg.
    rewrite (storage_filename_truthy e f
               (accepted_upload_fieldname req f Hp Hu)).
    simpl. forget_libraries. set_solver.
  - exact Hw.
  - cbn [categories set_categories set_uploads set_req_user params_id].
    rewrite Hid. now apply select_category_by_id_fresh.
Qed.

(** ** A password that is not text *)

(** With a truthy password that is not a string, [login] tells a stored
    email from an unknown one: the lookup that finds nobody answers 400,
    the one that finds a user goes on to [bcrypt.compare], whose refusal
    lands in the [catch]. *)
Lemma login_password_not_text (e : env) (req : request) (w : World) :
  truthy_field (body_email req) = true ->
  truthy (body_password req) = true ->
  text (body_password req) = None ->
  healthy w ->
  login e req w
  = (Ok (if select_user_by_email (str (body_email req)) (users w)
           is Some _
         then Respond 500 (Message "Server error")
         else Respond 400 (Message "Invalid credentials")), w).
Proof.
  intros He Hp Ht Hw. unfold login. rewrite He, Hp. simpl.
  unfold try_catch.
  rewrite (bind_run _ _ _ _ _ (getDb_healthy w Hw)).
  rewrite (bind_run _ _ _ _ _ (db_get_user_by_email_healthy _ w Hw)).
  destruct (select_user_by_email _ _) as [u|]; [|reflexivity].
  now rewrite (bind_throw _ _ _ _ _ (bcrypt_compare_refuses _ _ w Ht)).
Qed.

(** [register] never stores a user for such a password: past the two
    lookups, [bcrypt.hash] refuses it and the reply is 500. *)
Lemma register_password_not_text (e : env) (req : request) (w : World) :
  truthy_field (body_username req) = true ->
  truthy_field (body_email req) = true ->
  truthy (body_password req) = true ->
  text (body_password req) = None ->
  healthy w ->
  select_user_by_email (str (body_email req)) (users w) = None ->
  select_user_by_username (str (body_username req)) (users w) = None ->
  register e req w = (Ok (Respond 500 (Message "Server error")), w).
Proof.
  intros Hu He Hp Ht Hw Hfe Hfu. unfold register. rewrite Hu, He, Hp. simpl.
  unfold try_catch.
  rewrite (bind_run _ _ _ _ _ (getDb_healthy w Hw)).
  rewrite (bind_run _ _ _ _ _ (db_get_user_by_email_healthy _ w Hw)).
  rewrite Hfe.
  rewrite (bind_run _ _ _ _ _ (db_get_user_by_username_healthy _ w Hw)).
  rewrite Hfu.
  now rewrite (bind_throw _ _ _ _ _ (bcrypt_hash_refuses _ _ w Ht)).
Qed.

End Libraries.

(** ** The model at the seeded store

    The properties above hold for every implementation of the
    libraries; here they are applied with the stand-ins, at requests
    against the store that [initDb] seeds. *)

Abbreviation sample_serve :=
  (serve sample_genSalt sample_hash sample_compare sample_sign
     sample_verify sample_extname).

Lemma sample_authenticated (req : request) :
  authorization req = Some "Bearer key.admin" ->
  authenticated sample_verify sample_env req admin_payload.
Proof.
  intros H. exists "Bearer key.admin", "key.admin".
  repeat split; [exact H | discriminate].
Qed.



(** A text file sent to the create route. *)
Lemma refused_upload_inserts_nothing_witness :
  exists x,
    sample_serve PostCategories sample_env create_with_text_upload
      sample_world
    = (Ok (NextError x), sample_world) /\
    (x = Error "Not an image! Please upload only images." \/
     x = MulterError "LIMIT_FILE_SIZE" \/
     x = MulterError "LIMIT_UNEXPECTED_FILE").
Proof.
  apply (refused_upload_inserts_nothing sample_genSalt sample_hash
           sample_compare sample_sign sample_verify sample_extname
           sample_env create_with_text_upload sample_world admin_payload
           text_part).
  - now apply sample_authenticated.
  - reflexivity.
  - left. reflexivity.
Defined.

(** C3, as stated, fails: a text file sent to the create route is turned
    down by the filter, and the request ends in the filter's error handed
    to the framework, not in a 400 reply. *)
Lemma text_upload_not_validation_error :
  refused_upload text_part /\
  ~ exists r w',
      sample_serve PostCategories sample_env create_with_text_upload
        sample_world = (Ok r, w') /\
      is_ValidationError r.
Proof.
  split; [left; reflexivity|].
  intros (r & w' & Hrun & m & Hm).
  assert (E : sample_serve PostCategories sample_env
                create_with_text_upload sample_world
              = (Ok (NextError
                       (Error "Not an image! Please upload only images.")),
                 sample_world)) by reflexivity.
  rewrite E in Hrun. congruence.
Qed.

(** Updating only the item count of the first seeded category. *)
Lemma update_keeps_unspecified_fields_witness :
  exists c' w',
    sample_serve PutCategory sample_env update_count_only sample_world
    = (Ok (Respond 200 (CategoryJson (transform c'))), w') /\
    select_category_by_id 1 (categories w') = Some c' /\
    c_name c' = "Summer Clothes" /\
    c_image c' = Some "summer.jpg" /\
    c_updated_at c' = 1700000000.
Proof.
  destruct (update_keeps_unspecified_fields sample_genSalt sample_hash
              sample_compare sample_sign sample_verify sample_extname
              sample_env update_count_only sample_world admin_payload
              (sample_category 1 "Summer Clothes" 26 "summer.jpg"))
    as (c' & w' & Hrun & Hsel & Hname & _ & Himage & Hupdated & _).
  - now apply sample_authenticated.
  - reflexivity.
  - reflexivity.
  - reflexivity.
  - reflexivity.
  - exists c', w'. repeat split.
    + exact Hrun.
    + exact Hsel.
    + exact (Hname eq_refl).
    + exact (Himage eq_refl).
    + exact Hupdated.
Defined.



(** Creating a category under the name of the first seeded one. *)
Lemma duplicate_name_caught_by_lookup_witness :
  create_category sample_env create_summer_again sample_world
  = (Ok (Respond 400 (Message "Category already exists")), sample_world) /\
  forall item_count image, exists id row,
    db_insert_category sample_env "Summer Clothes" item_count image
      sample_world
    = (Ok id, set_categories (categories sample_world ++ [row]) id
                sample_world) /\
    c_name row = "Summer Clothes".
Proof.
  apply (duplicate_name_caught_by_lookup sample_env create_summer_again
           sample_world
           (sample_category 1 "Summer Clothes" 26 "summer.jpg"));
    reflexivity.
Defined.

(** C6, as stated, fails: two create requests for the same new name
    whose lookups both run before either insert are both answered 201,
    and the table ends with two rows of that name. *)
Lemma same_name_created_twice :
  exists j1 j2 w',
    create_interleaved sample_env sample_env create_flash_sale
      create_flash_sale sample_world
    = (Ok (Respond 201 (CategoryJson j1), Respond 201 (CategoryJson j2)),
       w') /\
    j_name j1 = "Flash Sale" /\ j_name j2 = "Flash Sale" /\
    j_id j1 <> j_id j2 /\
    length (List.filter (fun c => String.eqb (c_name c) "Flash Sale")
              (categories w')) = 2%nat.
Proof.
  eexists _, _, _. split; [reflexivity|].
  repeat split. discriminate.
Qed.

(** Deleting the first seeded category, whose image is on disk. *)
Lemma delete_removes_row_and_file_witness :
  exists w',
    sample_serve DeleteCategory sample_env delete_summer sample_world
    = (Ok (Respond 200 (Message "Category deleted successfully")), w') /\
    select_category_by_id 1 (categories w') = None /\
    "summer.jpg" ∉ uploads w'.
Proof.
  destruct (delete_removes_row_and_file sample_genSalt sample_hash
              sample_compare sample_sign sample_verify sample_extname
              sample_env delete_summer sample_world admin_payload
              (sample_category 1 "Summer Clothes" 26 "summer.jpg"))
    as (w' & Hrun & Hsel & Hfile & _).
  - now apply sample_authenticated.
  - reflexivity.
  - reflexivity.
  - exists w'. split; [exact Hrun|]. split; [exact Hsel|].
    exact (Hfile eq_refl).
Defined.

(** Uploading a new image for the first seeded category. *)
Lemma update_image_keeps_old_file_witness :
  exists c' w',
    sample_serve PutCategory sample_env update_image_only sample_world
    = (Ok (Respond 200 (CategoryJson (transform c'))), w') /\
    c_image c' = Some "image-1700000000000-123456789.jpg" /\
    "summer.jpg" ∈ uploads w'.
Proof.
  destruct (update_image_keeps_old_file sample_genSalt sample_hash
              sample_compare sample_sign sample_verify sample_extname
              sample_env update_image_only sample_world admin_payload
              (sample_category 1 "Summer Clothes" 26 "summer.jpg")
              "summer.jpg" jpeg_part)
    as (c' & w' & Hrun & _ & Himage & Hold & _).
  - now apply sample_authenticated.
  - reflexivity.
  - reflexivity.
  - reflexivity.
  - reflexivity.
  - reflexivity.
  - exists c', w'. split; [exact Hrun|]. split; [exact Himage|].
    apply Hold. apply (bool_decide_eq_true_1 _). reflexivity.
Defined.

(** Deleting the first seeded category when the DELETE statement
    fails. *)
Lemma delete_not_atomic_witness :
  exists w',
    sample_serve DeleteCategory sample_env delete_summer
      (with_faults [false; false; true] sample_world)
    = (Ok (Respond 500 (Message "Server error")), w') /\
    select_category_by_id 1 (categories w')
    = Some (sample_category 1 "Summer Clothes" 26 "summer.jpg") /\
    "summer.jpg" ∉ uploads w'.
Proof.
  apply (delete_not_atomic sample_genSalt sample_hash sample_compare
           sample_sign sample_verify sample_extname sample_env
           delete_summer (with_faults [false; false; true] sample_world)
           admin_payload
           (sample_category 1 "Summer Clothes" 26 "summer.jpg")).
  - now apply sample_authenticated.
  - reflexivity.
  - reflexivity.
  - reflexivity.
  - apply (bool_decide_eq_true_1 _). reflexivity.
Defined.

(** ** More of the model at the seeded store *)

Lemma sample_ids_ok : category_ids_ok sample_world.
Proof.
  split.
  - apply (bool_decide_eq_true_1 _). reflexivity.
  - apply (bool_decide_eq_true_1 _). reflexivity.
Qed.

Lemma sample_users_unique : unique_users sample_world.
Proof. split; apply NoDup_singleton. Qed.

(** A header that is the word "Bearer" alone. *)
Lemma protected_route_no_token_witness :
  sample_serve DeleteCategory sample_env header_without_token sample_world
  = (Ok (Respond 401
           (Message "No authentication token, authorization denied")),
     sample_world).
Proof.
  apply (protected_route_no_token sample_genSalt sample_hash
           sample_compare sample_sign sample_verify sample_extname
           DeleteCategory sample_env header_without_token sample_world
           "Bearer"); reflexivity.
Defined.

(** A token that the library does not accept. *)
Lemma protected_route_invalid_token_witness :
  sample_serve DeleteCategory sample_env forged_token_request sample_world
  = (Ok (Respond 401 (Message "Token is not valid")), sample_world).
Proof.
  apply (protected_route_invalid_token sample_genSalt sample_hash
           sample_compare sample_sign sample_verify sample_extname
           DeleteCategory sample_env forged_token_request sample_world
           "Bearer forged" "forged"
           (JsonWebTokenError "invalid signature"));
    try reflexivity. discriminate.
Defined.

(** The admin token sent after the word "Token". *)
Lemma guard_ignores_scheme_witness :
  auth sample_verify sample_env token_scheme_request
    (delete_category sample_env) sample_world
  = delete_category sample_env
      (set_req_user admin_payload token_scheme_request) sample_world.
Proof.
  apply (guard_ignores_scheme sample_verify sample_env
           token_scheme_request (delete_category sample_env) sample_world
           "Token" "key.admin" admin_payload); try reflexivity.
  - discriminate.
  - intros w. apply delete_category_total.
Defined.


Lemma register_then_login_witness :
  (login sample_compare sample_sign sample_env new_user_register
     (register sample_genSalt sample_hash sample_env new_user_register
        sample_world).2).1
  = Ok (Respond 200
          (LoginOk "key.newcomer"
             {| pu_id := 2; pu_username := "newcomer";
                pu_email := "newcomer@example.com" |})).
Proof.
  apply (register_then_login sample_genSalt sample_hash sample_compare
           sample_sign sample_env sample_env new_user_register
           sample_world "key.newcomer"); reflexivity.
Defined.

(** The seeded user logging in. *)
Lemma login_reply_for_known_user_witness :
  login sample_compare sample_sign sample_env admin_login sample_world
  = (Ok (Respond 200
           (LoginOk "key.admin"
              {| pu_id := 1; pu_username := "admin";
                 pu_email := "admin@example.com" |})), sample_world).
Proof.
  apply (proj1 (login_reply_for_known_user sample_compare sample_sign
                  sample_env admin_login sample_world admin_row
                  eq_refl eq_refl eq_refl eq_refl eq_refl)).
  reflexivity.
Defined.

Lemma current_user_by_token_id_witness :
  sample_serve GetUser sample_env sample_request sample_world
  = (Ok (Respond 200
           (UserJson {| pu_id := 1; pu_username := "admin";
                        pu_email := "admin@example.com" |})),
     sample_world).
Proof.
  apply (current_user_by_token_id sample_genSalt sample_hash
           sample_compare sample_sign sample_verify sample_extname
           sample_env sample_request sample_world admin_payload).
  - now apply sample_authenticated.
  - reflexivity.
Defined.

Lemma login_token_opens_guard_witness :
  exists pu,
    login sample_compare sample_sign sample_env admin_login sample_world
    = (Ok (Respond 200 (LoginOk "key.admin" pu)), sample_world) /\
    sample_serve GetUser sample_env sample_request sample_world
    = (Ok (Respond 200 (UserJson pu)), sample_world).
Proof.
  apply (login_token_opens_guard sample_genSalt sample_hash
           sample_compare sample_sign sample_verify sample_extname
           sample_env sample_env admin_login sample_request sample_world
           admin_row "key.admin"); try reflexivity.
  - apply NoDup_singleton.
  - discriminate.
Defined.


Lemma read_only_routes_change_nothing_witness :
  same_data sample_world
    (sample_serve GetCategories sample_env sample_request sample_world).2.
Proof.
  apply (read_only_routes_change_nothing sample_genSalt sample_hash
           sample_compare sample_sign sample_verify sample_extname
           GetCategories sample_env sample_request sample_world).
  reflexivity.
Defined.

(** Two registrations, the second with a failing insert, then a
    delete. *)
Lemma users_stay_unique_witness :
  unique_users
    (run_requests sample_genSalt sample_hash sample_compare sample_sign
       sample_verify sample_extname
       [ (PostRegister, sample_env, new_user_register, []);
         (PostRegister, sample_env, rival_register,
          [false; false; false; true]);
         (DeleteCategory, sample_env, delete_summer, []) ]
       sample_world).
Proof.
  apply (users_stay_unique sample_genSalt sample_hash sample_compare
           sample_sign sample_verify sample_extname).
  exact sample_users_unique.
Defined.

(** A create, a delete and a create again. *)
Lemma category_ids_stay_ok_witness :
  category_ids_ok
    (run_requests sample_genSalt sample_hash sample_compare sample_sign
       sample_verify sample_extname
       [ (PostCategories, sample_env, create_flash_sale, []);
         (DeleteCategory, sample_env, delete_summer, []);
         (PostCategories, sample_env, create_with_negative_count,
          [false; false; true]) ]
       sample_world).
Proof.
  apply (category_ids_stay_ok sample_genSalt sample_hash sample_compare
           sample_sign sample_verify sample_extname).
  exact sample_ids_ok.
Defined.

(** Deleting category 1 and creating a new one. *)
Lemma deleted_id_not_reused_witness :
  exists j w',
    create_category sample_env create_flash_sale
      (delete_category sample_env delete_summer sample_world).2
    = (Ok (Respond 201 (CategoryJson j)), w') /\
    1 < j_id j.
Proof.
  destruct (deleted_id_not_reused sample_env sample_env delete_summer
              create_flash_sale sample_world
              (sample_category 1 "Summer Clothes" 26 "summer.jpg"))
    as (j & w' & Hrun & Hid & _); try reflexivity.
  - exact sample_ids_ok.
  - exists j, w'. split; [exact Hrun | exact Hid].
Defined.


(** A second "Summer Clothes", sent with an image. *)
Lemma rejected_request_leaves_upload_witness :
  sample_serve PostCategories sample_env create_summer_with_image
    sample_world
  = (Ok (Respond 400 (Message "Category already exists")),
     set_uploads
       ({["image-1700000000000-123456789.jpg"]} ∪ uploads sample_world)
       sample_world).
Proof.
  apply (proj1 (rejected_request_leaves_upload sample_genSalt sample_hash
                  sample_compare sample_sign sample_verify sample_extname
                  sample_env create_summer_with_image sample_world
                  admin_payload jpeg_part
                  (sample_authenticated create_summer_with_image eq_refl)
                  eq_refl eq_refl eq_refl)).
  - reflexivity.
  - now exists (sample_category 1 "Summer Clothes" 26 "summer.jpg").
Defined.

Lemma update_leaves_other_rows_witness :
  length (categories
            (update_category sample_env update_count_only sample_world).2)
  = 6%nat /\
  nth_error
    (categories
       (update_category sample_env update_count_only sample_world).2) 1
  = Some (sample_category 2 "Winter Collection" 32 "winter.jpg").
Proof.
  destruct (update_leaves_other_rows sample_env update_count_only
              sample_world
              (sample_category 1 "Summer Clothes" 26 "summer.jpg")
              eq_refl eq_refl) as (Hlen & Hrows & _).
  split; [exact Hlen|].
  apply (Hrows 1%nat); [reflexivity | discriminate].
Defined.

(** Renaming category 1 to the name of category 2. *)
Lemma update_allows_duplicate_name_witness :
  exists c' w',
    update_category sample_env rename_to_winter sample_world
    = (Ok (Respond 200 (CategoryJson (transform c'))), w') /\
    c_name c' = "Winter Collection" /\
    In (sample_category 2 "Winter Collection" 32 "winter.jpg")
      (categories w').
Proof.
  destruct (update_allows_duplicate_name sample_env rename_to_winter
              sample_world
              (sample_category 1 "Summer Clothes" 26 "summer.jpg")
              (sample_category 2 "Winter Collection" 32 "winter.jpg"))
    as (c' & w' & Hrun & _ & Hname & Hin & _); try reflexivity.
  - right. left. reflexivity.
  - discriminate.
  - exists c', w'. split; [exact Hrun|]. split; [exact Hname | exact Hin].
Defined.

Lemma delete_leaves_the_rest_witness :
  In (sample_category 2 "Winter Collection" 32 "winter.jpg")
    (categories
       (delete_category sample_env delete_summer sample_world).2) /\
  "winter.jpg"
  ∈ uploads (delete_category sample_env delete_summer sample_world).2.
Proof.
  destruct (delete_leaves_the_rest sample_env delete_summer sample_world
              (sample_category 1 "Summer Clothes" 26 "summer.jpg")
              eq_refl eq_refl) as (Hrows & Hfiles & _).
  split.
  - apply Hrows. split; [|discriminate]. right. left. reflexivity.
  - apply Hfiles. split; [|intros _; discriminate].
    apply (bool_decide_eq_true_1 _). reflexivity.
Defined.

Lemma delete_unknown_id_witness :
  sample_serve DeleteCategory sample_env delete_unknown sample_world
  = (Ok (Respond 404 (Message "Category not found")), sample_world).
Proof.
  apply (delete_unknown_id sample_genSalt sample_hash sample_compare
           sample_sign sample_verify sample_extname sample_env
           delete_unknown sample_world admin_payload).
  - now apply sample_authenticated.
  - reflexivity.
  - reflexivity.
Defined.

Lemma list_newest_first_witness :
  exists rows,
    sample_serve GetCategories sample_env sample_request sample_world
    = (Ok (Respond 200 (CategoriesJson (map transform rows))),
       sample_world) /\
    Permutation rows sampleCategories /\
    StronglySorted newest_first rows.
Proof.
  destruct (list_newest_first sample_genSalt sample_hash sample_compare
              sample_sign sample_verify sample_extname sample_env
              sample_request sample_world admin_payload)
    as (rows & Hrun & Hperm & Hsorted & _).
  - now apply sample_authenticated.
  - reflexivity.
  - exists rows. split; [exact Hrun|]. split; [exact Hperm | exact Hsorted].
Defined.

(** A delete when the store cannot be opened. *)
Lemma store_down_answers_500_witness :
  delete_category sample_env delete_summer
    (with_faults [true] sample_world)
  = (Ok (Respond 500 (Message "Server error")),
     with_faults [] (with_faults [true] sample_world)).
Proof.
  destruct (store_down_answers_500 sample_genSalt sample_hash
              sample_compare sample_sign sample_env delete_summer
              (with_faults [true] sample_world) [] eq_refl)
    as (_ & _ & _ & _ & _ & _ & Hdelete).
  exact Hdelete.
Defined.

(** A restart on the seeded store. *)
Lemma initDb_keeps_rows_and_is_idempotent_witness :
  exists w',
    initDb sample_genSalt sample_hash sample_env sample_world
    = (Ok tt, w') /\
    users w' = users sample_world /\
    categories w' = categories sample_world.
Proof.
  destruct (initDb_keeps_rows_and_is_idempotent sample_genSalt
              sample_hash sample_env sample_world eq_refl)
    as (w' & Hrun & Hu & Hc & _).
  exists w'. split; [exact Hrun|]. split.
  - apply Hu. discriminate.
  - apply Hc. discriminate.
Defined.

(** The first start, and the test account. *)
Lemma seeded_admin_can_log_in_witness :
  exists w',
    initDb sample_genSalt sample_hash sample_env empty_world
    = (Ok tt, w') /\
    login sample_compare sample_sign sample_env admin_login w'
    = (Ok (Respond 200
             (LoginOk "key.admin"
                {| pu_id := 1; pu_username := "admin";
                   pu_email := "admin@example.com" |})), w').
Proof.
  destruct (seeded_admin_can_log_in sample_genSalt sample_hash
              sample_compare sample_sign sample_env sample_env
              admin_login empty_world "key.admin" eq_refl eq_refl eq_refl
              eq_refl eq_refl eq_refl eq_refl)
    as (w' & Hrun & _ & _ & _ & Hlogin).
  exists w'. split; [exact Hrun | exact Hlogin].
Defined.

(** A registration without an email, a login without a password and a
    create without a name, on a store that is down. *)
Lemma missing_field_rejected_before_store_witness :
  register sample_genSalt sample_hash sample_env delete_summer
    (with_faults [true] sample_world)
  = (Ok (Respond 400 (Message "Please enter all fields")),
     with_faults [true] sample_world) /\
  login sample_compare sample_sign sample_env delete_summer
    (with_faults [true] sample_world)
  = (Ok (Respond 400 (Message "Please enter all fields")),
     with_faults [true] sample_world) /\
  create_category sample_env delete_summer
    (with_faults [true] sample_world)
  = (Ok (Respond 400 (Message "Category name is required")),
     with_faults [true] sample_world).
Proof.
  destruct (missing_field_rejected_before_store sample_genSalt
              sample_hash sample_compare sample_sign sample_env
              delete_summer (with_faults [true] sample_world))
    as (Hregister & Hlogin & Hcreate).
  split; [|split].
  - apply Hregister. now left.
  - apply Hlogin. now left.
  - now apply Hcreate.
Defined.

(** A delete and the users table; a registration and the categories. *)
Lemma tables_written_by_own_routes_witness :
  users (sample_serve DeleteCategory sample_env delete_summer
           sample_world).2 = [admin_row] /\
  categories (sample_serve PostRegister sample_env new_user_register
                sample_world).2 = sampleCategories.
Proof.
  split.
  - apply (proj1 (tables_written_by_own_routes sample_genSalt sample_hash
                    sample_compare sample_sign sample_verify
                    sample_extname DeleteCategory sample_env
                    delete_summer sample_world)).
    discriminate.
  - apply (proj2 (tables_written_by_own_routes sample_genSalt sample_hash
                    sample_compare sample_sign sample_verify
                    sample_extname PostRegister sample_env
                    new_user_register sample_world)).
    reflexivity.
Defined.

(** A new category sent with an image. *)
Lemma created_image_is_on_disk_witness :
  exists j row w',
    sample_serve PostCategories sample_env create_posters_with_image
      sample_world
    = (Ok (Respond 201 (CategoryJson j)), w') /\
    c_image row = Some "image-1700000000000-123456789.jpg" /\
    "image-1700000000000-123456789.jpg" ∈ uploads w' /\
    j_image j = Some "/uploads/image-1700000000000-123456789.jpg".
Proof.
  destruct (created_image_is_on_disk sample_genSalt sample_hash
              sample_compare sample_sign sample_verify sample_extname
              sample_env create_posters_with_image sample_world
              admin_payload jpeg_part)
    as (j & row & w' & Hrun & _ & Himg & Hfile & Hpath & _);
    try reflexivity.
  - now apply sample_authenticated.
  - exists j, row, w'. split; [exact Hrun|]. split; [exact Himg|].
    split; [exact Hfile | exact Hpath].
Defined.

(** The same category, deleted again under the id it was given. *)
Lemma create_then_delete_restores_witness :
  exists j w1 w2,
    sample_serve PostCategories sample_env create_posters_with_image
      sample_world
    = (Ok (Respond 201 (CategoryJson j)), w1) /\
    sample_serve DeleteCategory sample_env delete_seventh w1
    = (Ok (Respond 200 (Message "Category deleted successfully")), w2) /\
    categories w2 = sampleCategories /\
    uploads w2 = uploads sample_world.
Proof.
  destruct (create_then_delete_restores sample_genSalt sample_hash
              sample_compare sample_sign sample_verify sample_extname
              sample_env sample_env create_posters_with_image
              delete_seventh sample_world admin_payload admin_payload
              jpeg_part)
    as (j & w1 & w2 & Hrun & Hdelete); try reflexivity.
  - now apply sample_authenticated.
  - apply (bool_decide_eq_false_1 _). reflexivity.
  - now apply sample_authenticated.
  - exists j, w1, w2. split; [exact Hrun|].
    assert (Hid : params_id delete_seventh = j_id j).
    { assert (E : (sample_serve PostCategories sample_env
                     create_posters_with_image sample_world).1
                  = Ok (Respond 201
                          (CategoryJson
                             {| j_id := 7; j_name := "Posters";
                                j_itemCount := SqlInt 4;
                                j_image :=
                                  Some
                                    ("/uploads/"
                                     +:+ "image-1700000000000-123456789.jpg");
                                j_createdAt := 1700000000;
                                j_updatedAt := 1700000000 |})))
        by reflexivity.
      rewrite Hrun in E. simpl in E. injection E as ->. reflexivity. }
    destruct (Hdelete Hid) as (Hdel & Hrows & Hfiles & _).
    split; [exact Hdel|]. split; [exact Hrows | exact Hfiles].
Defined.

